(** * The buffered writer of handler.py ([DataWriter])

    A shallow embedding of the class [DataWriter] of [src/handler.py] and
    the properties of its buffering and flush-on-threshold behaviour.

    - [PyDict]: Python's insertion-ordered [dict] with [str] keys.
    - [Exec]: the effects of a method call: the writer object is mutated in
      place and a call either returns or raises, the mutations done before
      the [raise] staying visible to the caller.
    - Section [Writer]: the methods of [DataWriter], over an arbitrary sink
      (the [handler] argument of the constructor).
    - [Py], [Files], [Database], [Documents], [Sessions], [Mail]: the other
      classes of the file ([Handler], [DatabaseHandler], [DocumentStore],
      [Session], [EmailHandler]), up to their calls into libraries, which
      are parameters. *)

From Stdlib Require Import Ascii String List ZArith Lia Bool Arith.
Import ListNotations.

(* ================================================================== *)
(** ** Python dictionaries *)
(* ================================================================== *)

Module PyDict.

(** A [dict] keeps its entries in insertion order: [_buf_size] reads
    [list(self._buffer.keys())[0]], so the order is observable. *)
Definition dict (A : Type) : Type := list (string * A).

Section Ops.
Context {A : Type}.

(** [d.keys()] *)
Definition keys (d : dict A) : list string := map fst d.

(** [d[k]]; [None] stands for the [KeyError]. *)
Fixpoint getitem (k : string) (d : dict A) : option A :=
  match d with
  | [] => None
  | (k', v) :: r => if String.eqb k k' then Some v else getitem k r
  end.

(** [k in d.keys()] *)
Definition contains (k : string) (d : dict A) : bool :=
  existsb (String.eqb k) (keys d).

(** [d[k] = v]: an existing key keeps its position, a new one goes last. *)
Fixpoint setitem (k : string) (v : A) (d : dict A) : dict A :=
  match d with
  | [] => [(k, v)]
  | (k', v') :: r =>
      if String.eqb k k' then (k, v) :: r else (k', v') :: setitem k v r
  end.

(** The keys of a [dict] are pairwise distinct. *)
Definition wf (d : dict A) : Prop := NoDup (keys d).

Fixpoint nodupb (l : list string) : bool :=
  match l with
  | [] => true
  | k :: r => negb (existsb (String.eqb k) r) && nodupb r
  end.

Definition wfb (d : dict A) : bool := nodupb (keys d).
End Ops.

End PyDict.

Import PyDict.

(* ================================================================== *)
(** ** Calls that mutate an object and may raise *)
(* ================================================================== *)

Module Exec.

Section Monad.
Variables (Exn St : Type).

Inductive outcome (A : Type) : Type :=
| Return (a : A)
| Raise (e : Exn).

Arguments Return {A} a.

(** A call takes the state of the world, and gives what it returns or
    raises together with the state it leaves behind. *)
Definition M (A : Type) : Type := St -> outcome A * St.

Definition ret {A} (a : A) : M A := fun s => (Return a, s).

Definition raise {A} (e : Exn) : M A := fun s => (Raise A e, s).

Definition bind {A B} (c : M A) (k : A -> M B) : M B :=
  fun s =>
    match c s with
    | (Return a, s') => k a s'
    | (Raise _ e, s') => (Raise B e, s')
    end.

Definition get : M St := fun s => (Return s, s).

Definition modify (f : St -> St) : M unit := fun s => (Return tt, f s).

(** [for x in l: body(x)] *)
Fixpoint for_each {A} (l : list A) (body : A -> M unit) : M unit :=
  match l with
  | [] => ret tt
  | x :: r => bind (body x) (fun _ => for_each r body)
  end.
End Monad.

Arguments Return {Exn A} a.
Arguments Raise {Exn} A e.
Arguments ret {Exn St A} a.
Arguments raise {Exn St A} e.
Arguments bind {Exn St A B} c k.
Arguments get {Exn St}.
Arguments modify {Exn St} f.
Arguments for_each {Exn St A} l body.

Module Notations.
Declare Scope exec_scope.
Delimit Scope exec_scope with exec.
Notation "x <- c1 ;; c2" := (bind c1 (fun x => c2))
  (at level 61, c1 at next level, right associativity) : exec_scope.
Notation "c1 ;; c2" := (bind c1 (fun _ => c2))
  (at level 61, right associativity) : exec_scope.
End Notations.

End Exec.

Import Exec Exec.Notations.
Local Open Scope exec_scope.
Local Open Scope Z_scope.

(* ================================================================== *)
(** ** class DataWriter *)
(* ================================================================== *)

(** The sink: the object bound to [self._handler], of any class with a
    [write(data, table)] method, and what that method may raise.
    [handler_write h data table] is [h.write(data, table)]: the state the
    sink is left in, and the exception if it raised.  The sink reads its
    [data] argument and leaves it as it is, as [DatabaseHandler.write] does,
    which builds a [DataFrame] from it. *)
Class Sink (Value : Type) : Type := {
  Handler : Type;
  SinkExn : Type;
  handler_write :
    Handler -> dict (list Value) -> string -> Handler * option SinkExn
}.

Section Writer.

(** The scalar values of a record, and the sink written to. *)
Context {Value : Type} {sink : Sink Value}.

(** One data entry, [data: dict] of [write]. *)
Definition Data : Type := dict Value.

(** [self._buffer]: a column of values per key. *)
Definition Buffer : Type := dict (list Value).

Inductive exn : Type :=
| NotImplementedError (msg : string)
| KeyError (key : string)
| SinkError (e : SinkExn).

(** The attributes [__init__] sets. *)
Record DataWriter : Type := mkDataWriter {
  _handler : Handler;
  _buf_capacity : Z;
  _table : string;
  _buffer : Buffer
}.

(** The writer object, and the calls [self._handler.write] has received so
    far, oldest first, with their arguments as they were at the call. *)
Record World : Type := mkWorld {
  self : DataWriter;
  sink_calls : list (Buffer * string)
}.

Definition set_buffer (b : Buffer) (w : World) : World :=
  mkWorld (mkDataWriter (_handler (self w)) (_buf_capacity (self w))
                        (_table (self w)) b)
          (sink_calls w).

Definition Call (A : Type) : Type := M exn World A.

(** [d[k]] inside a call. *)
Definition lookup {A} (k : string) (d : dict A) : Call A :=
  match getitem k d with
  | Some v => ret v
  | None => raise (KeyError k)
  end.

(** The world once the sink has been handed the buffer and is left in
    state [h']: the call is on record, the writer is as it was. *)
Definition sent (h' : Handler) (w : World) : World :=
  mkWorld (mkDataWriter h' (_buf_capacity (self w)) (_table (self w))
                        (_buffer (self w)))
          (sink_calls w ++ [(_buffer (self w), _table (self w))]).

(** [self._handler.write(self._buffer, self._table)] *)
Definition call_handler_write : Call unit :=
  fun w =>
    let o := self w in
    let (h', r) := handler_write (_handler o) (_buffer o) (_table o) in
    match r with
    | None => (Return tt, sent h' w)
    | Some e => (Raise unit (SinkError e), sent h' w)
    end.

(** What a class derived from [DataWriter] supplies: [_reset_buffer]. *)
Class Resetter : Type := { _reset_buffer : Call unit }.

(** [DataWriter._reset_buffer] itself. *)
Definition Base : Resetter :=
  {| _reset_buffer :=
       raise (NotImplementedError "Buffer resetter not implemented."%string) |}.

(** The buffer with an empty column for each of [fields]:
    [{f: [] for f in fields}]. *)
Definition empty_columns (fields : list string) : Buffer :=
  fold_left (fun b f => setitem f [] b) fields [].

(** Modelled from the spec: the override of [_reset_buffer] in a derived
    class, which the source leaves to its users ("initialize(fields):
    resets the Buffer to an empty sequence for each recognized field
    name"). *)
Definition Columns (fields : list string) : Resetter :=
  {| _reset_buffer := modify (set_buffer (empty_columns fields)) |}.

Section Methods.
Context {cls : Resetter}.

(** [DataWriter(handler, table, capacity)]: [__init__] on the new
    object; the object is handed to the caller if [__init__] returns. *)
Definition __init__ (handler : Handler) (table : string) (capacity : Z)
  : outcome exn unit * World :=
  _reset_buffer (mkWorld (mkDataWriter handler capacity table []) []).

Definition new (handler : Handler) (table : string) (capacity : Z)
  : outcome exn World :=
  match __init__ handler table capacity with
  | (Return _, w) => Return w
  | (Raise _ e, _) => Raise World e
  end.

(** [_append_buffer]: the body of the loop, then the loop. *)
Definition _append_key (data : Data) (key : string) : Call unit :=
  w <- get ;;
  if contains key (_buffer (self w)) then
    col <- lookup key (_buffer (self w)) ;;
    v <- lookup key data ;;
    modify (set_buffer (setitem key (col ++ [v]) (_buffer (self w))))
  else ret tt.

Definition _append_buffer (data : Data) : Call unit :=
  for_each (keys data) (_append_key data).

(** The property [_buf_size]: with [len(self._buffer.keys()) > 0] the
    length of the column of [list(self._buffer.keys())[0]], else 0. *)
Definition _buf_size : Call nat :=
  w <- get ;;
  match keys (_buffer (self w)) with
  | key :: _ =>
      col <- lookup key (_buffer (self w)) ;;
      ret (length col)
  | [] => ret 0%nat
  end.

Definition flush : Call unit :=
  n <- _buf_size ;;
  if (0 <? Z.of_nat n) then
    call_handler_write ;;
    _reset_buffer
  else ret tt.

Definition write (data : Data) : Call unit :=
  _append_buffer data ;;
  n <- _buf_size ;;
  w <- get ;;
  if (Z.of_nat n >=? _buf_capacity (self w)) then flush else ret tt.

(** A caller's [for data in ds: writer.write(data)]. *)
Definition write_seq (ds : list Data) : Call unit := for_each ds write.

(** The operations of a writer, and a caller that goes through a list
    of them, carrying on after one that raised. *)
Inductive op : Type :=
| OpWrite (data : Data)
| OpAppend (data : Data)
| OpFlush
| OpInitialize.

Definition run_op (o : op) : Call unit :=
  match o with
  | OpWrite data => write data
  | OpAppend data => _append_buffer data
  | OpFlush => flush
  | OpInitialize => _reset_buffer
  end.

Definition run_ops (os : list op) (w : World) : World :=
  fold_left (fun w o => snd (run_op o w)) os w.
End Methods.

(** *** What the buffer holds, as functions of the records appended *)

(** What one record contributes to the column of key [k]. *)
Definition cell (k : string) (d : Data) : list Value :=
  match getitem k d with
  | Some v => [v]
  | None => []
  end.

(** The values the records [ds] have under key [k], in order. *)
Definition column (k : string) (ds : list Data) : list Value :=
  flat_map (cell k) ds.

(** The record [d] without its entry for [k]. *)
Definition without (k : string) (d : Data) : Data :=
  filter (fun kv => negb (String.eqb k (fst kv))) d.

(** The buffer [b] with the records [ds] appended to its columns. *)
Definition extend (ds : list Data) (b : Buffer) : Buffer :=
  map (fun kc => (fst kc, snd kc ++ column (fst kc) ds)) b.

(** The length of the first column, [0] without columns. *)
Definition buf_len (b : Buffer) : nat :=
  match b with
  | [] => 0
  | (_, col) :: _ => length col
  end.

(** [data] has every key of the buffer [b]: it is fully populated. *)
Definition populated (b : Buffer) (data : Data) : bool :=
  forallb (fun k => contains k data) (keys b).

(** All the columns of [b] have the same length. *)
Definition uniform (b : Buffer) : bool :=
  forallb (fun kc => Nat.eqb (length (snd kc)) (buf_len b)) b.

(** The invariant of the writer: the buffer has the columns of the class,
    all of one length. *)
Definition tabular (fields : list string) (w : World) : Prop :=
  keys (_buffer (self w)) = keys (empty_columns fields)
  /\ uniform (_buffer (self w)) = true.

Definition op_data (o : op) : list Data :=
  match o with
  | OpWrite data | OpAppend data => [data]
  | OpFlush | OpInitialize => []
  end.

End Writer.

Arguments Data Value : clear implicits.
Arguments Buffer Value : clear implicits.
Arguments exn {Value sink}.
Arguments World {Value sink}.
Arguments DataWriter {Value sink}.
Arguments Resetter {Value sink}.

(* ================================================================== *)
(** ** Accounting for the records of a writer *)
(* ================================================================== *)

Section Accounting.
Context {Value : Type}.

(** The column the buffer [b] has under key [k], empty without the key. *)
Definition stored (k : string) (b : Buffer Value) : list Value :=
  match getitem k b with
  | Some col => col
  | None => []
  end.

(** What the calls [calls] of the sink's [write] carried under key [k],
    oldest first. *)
Definition delivered (k : string) (calls : list (Buffer Value * string))
  : list Value :=
  flat_map (fun c => stored k (fst c)) calls.

(** A call the writer may make of its sink: a buffer whose first column
    is not empty, for the table [table]. *)
Definition batch_for (table : string) (c : Buffer Value * string) : Prop :=
  (0 < buf_len (fst c))%nat /\ snd c = table.

End Accounting.

Section Carrying.
Context {Value : Type} {sink : Sink Value}.

(** What a call leaves alone: capacity and table stay, and the sink has
    been called only with batches for that table. *)
Definition carries_on (w w' : World) : Prop :=
  _buf_capacity (self w') = _buf_capacity (self w)
  /\ _table (self w') = _table (self w)
  /\ exists calls,
       sink_calls w' = (sink_calls w ++ calls)%list
       /\ Forall (batch_for (_table (self w))) calls.

End Carrying.

(* ================================================================== *)
(** ** A sink to run the writer against *)
(* ================================================================== *)

Module Fixture.

(** A sink that accepts as many writes as its state says and then raises
    on every further one. *)
#[export] Instance budget_sink : Sink Z := {|
  Handler := nat;
  SinkExn := string;
  handler_write h _ _ :=
    match h with
    | O => (O, Some "connection lost"%string)
    | S n => (n, None)
    end
|}.

Definition t_v : list string := ["t"; "v"]%string.

Definition rec (t v : Z) : Data Z := [("t"%string, t); ("v"%string, v)].

(** A [DataWriter] derived with the columns [fields], as its constructor
    leaves it: bound to a sink that accepts [budget] writes, with
    destination [readings]. *)
Definition writer (fields : list string) (budget : nat) (capacity : Z) : World :=
  mkWorld (mkDataWriter (budget : Handler) capacity "readings"%string
                        (empty_columns fields)) [].

(** The same writer with one record, [t = 1] and [v = 10], in its buffer. *)
Definition loaded (budget : nat) (capacity : Z) : World :=
  set_buffer [("t"%string, [1]); ("v"%string, [10])] (writer t_v budget capacity).

(** A record with a key the writer has no column for. *)
Definition rec_extra (t v x : Z) : Data Z :=
  [("t"%string, t); ("v"%string, v); ("unit"%string, x)].

(** A record without the first column of the writer. *)
Definition rec_v (v : Z) : Data Z := [("v"%string, v)].

End Fixture.

(* ================================================================== *)
(** ** The other classes of handler.py: values, errors and results *)
(* ================================================================== *)

Module Py.

(** A value of a configuration, as far as the handlers look at it: they
    compare it with [str] literals, test it against [None] and format it
    with [%s].  [COther shown] is any value that is neither [None] nor a
    [str] (a number, say), with what [%s] shows of it. *)
Inductive cfgval : Type :=
| CNone
| CStr (s : string)
| COther (shown : string).

(** ["%s" % v] *)
Definition fmt (v : cfgval) : string :=
  match v with
  | CNone => "None"
  | CStr s => s
  | COther shown => shown
  end.

(** [v == 'literal'] *)
Definition eq_str (v : cfgval) (literal : string) : bool :=
  match v with
  | CStr s => String.eqb s literal
  | _ => false
  end.

(** [v is not None] *)
Definition is_not_None (v : cfgval) : bool :=
  match v with
  | CNone => false
  | _ => true
  end.

(** [v in [l1, l2, ...]] *)
Definition in_strs (v : cfgval) (literals : list string) : bool :=
  existsb (eq_str v) literals.

(** What the methods raise; [LibraryError e] is whatever a call into a
    library (pandas, h5py, pymongo, smtplib, ...) raised. *)
Inductive error (E : Type) : Type :=
| ValueError (msg : string)
| KeyError (key : string)
| IndexError
| TypeError (msg : string)
| AttributeError (msg : string)
| UnboundLocalError (name : string)
| LibraryError (e : E).

Arguments ValueError {E} msg.
Arguments KeyError {E} key.
Arguments IndexError {E}.
Arguments TypeError {E} msg.
Arguments AttributeError {E} msg.
Arguments UnboundLocalError {E} name.
Arguments LibraryError {E} e.

(** A computation without effects on the objects at hand: it returns or
    raises. *)
Definition result (E A : Type) : Type := outcome (error E) A.

Definition and_then {E A B} (c : result E A) (k : A -> result E B) : result E B :=
  match c with
  | Return a => k a
  | Raise _ e => Raise B e
  end.

(** A call into a library: it returns or raises its own exception. *)
Definition library {E A} (r : E + A) : result E A :=
  match r with
  | inr a => Return a
  | inl e => Raise A (LibraryError e)
  end.

(** [d[k]] *)
Definition item {E A} (k : string) (d : dict A) : result E A :=
  match getitem k d with
  | Some v => Return v
  | None => Raise A (KeyError k)
  end.

(** [self.configs]: what the configuration file held, [None] without a
    configuration file. *)
Definition Configs : Type := option (dict cfgval).

(** [self.configs[k]] *)
Definition configs_item {E} (k : string) (configs : Configs) : result E cfgval :=
  match configs with
  | Some c => item k c
  | None => Raise cfgval (TypeError "'NoneType' object is not subscriptable")
  end.

Module Notations.
Declare Scope py_scope.
Delimit Scope py_scope with py.
Notation "x <~ c1 ;; c2" := (and_then c1 (fun x => c2))
  (at level 61, c1 at next level, right associativity) : py_scope.
End Notations.

End Py.

(* ================================================================== *)
(** ** class Handler: loading and dumping files *)
(* ================================================================== *)

Module Files.
Import Py Py.Notations.
Local Open Scope py_scope.
Local Open Scope string_scope.

Section Hdf5.
(** What [h5py] raises, and the values of datasets and of attributes. *)
Context {E V A : Type}.

(** A member of an HDF5 file, as [obj[key]] finds it: a dataset, whose
    content [obj[()]] reads or fails to read; a group with its members by
    name, in the order [keys()] gives them; something else (a named
    datatype); or a link that cannot be resolved, for which [obj[key]]
    raises. *)
#[warnings="-register-all"]
Inductive h5obj : Type :=
| Dataset (content : E + V)
| Group (members : list (string * h5obj))
| Other
| Unresolved (e : E).

(** What [hdf5_to_dict] puts under a key. *)
Inductive entry : Type :=
| Attrs (attrs : dict A)
| Content (content : V).

(** The local function [parse_hdf5_obj] of [hdf5_to_dict], on the
    [data_dict] it fills: the dictionary as it is when the call returns,
    or what the call raised. *)
Fixpoint parse_hdf5_obj (obj : h5obj) (parent_key : string)
    (data_dict : dict entry) : result E (dict entry) :=
  match obj with
  | Dataset content =>
      match content with
      | inr c => Return (setitem parent_key (Content c) data_dict)
      | inl e => Raise (dict entry) (LibraryError e)
      end
  | Group members =>
      (fix each (ms : list (string * h5obj)) (dd : dict entry)
         : result E (dict entry) :=
         match ms with
         | [] => Return dd
         | (key, o) :: rest =>
             match parse_hdf5_obj o (parent_key ++ "/" ++ key) dd with
             | Return dd' => each rest dd'
             | Raise _ e => Raise (dict entry) e
             end
         end) members data_dict
  | Other => Return data_dict
  | Unresolved e => Raise (dict entry) (LibraryError e)
  end.

(** The loop over the members of a group, by name. *)
Fixpoint parse_members (members : list (string * h5obj)) (parent_key : string)
    (data_dict : dict entry) : result E (dict entry) :=
  match members with
  | [] => Return data_dict
  | m :: rest =>
      dd <~ parse_hdf5_obj (snd m) (parent_key ++ "/" ++ fst m) data_dict ;;
      parse_members rest parent_key dd
  end.

(** [data_dict['attrs'][name] = value] for the attributes of the file. *)
Definition collect_attrs (file_attrs : list (string * A)) : dict A :=
  fold_left (fun d nv => setitem (fst nv) (snd nv) d) file_attrs [].

(** [hdf5_to_dict] on an open file: its attributes and its root group. *)
Definition hdf5_to_dict (file_attrs : list (string * A)) (file : h5obj)
  : result E (dict entry) :=
  parse_hdf5_obj file "" [("attrs", Attrs (collect_attrs file_attrs))].

(** The key [hdf5_to_dict] uses for the names [path] from the root down. *)
Definition path_key (path : list string) : string :=
  fold_left (fun k name => k ++ "/" ++ name) path "".

(** A key [hdf5_to_dict] makes for an object: empty for the root itself,
    else beginning with a slash. *)
Definition rooted (k : string) : Prop := k = "" \/ String.prefix "/" k = true.

(** [obj] has a dataset that reads as [content] at the end of the names
    [path]. *)
Inductive dataset_at : h5obj -> list string -> V -> Prop :=
| at_dataset content : dataset_at (Dataset (inr content)) [] content
| at_member members name o path content :
    In (name, o) members -> dataset_at o path content ->
    dataset_at (Group members) (name :: path) content.
End Hdf5.

Arguments h5obj E V : clear implicits.
Arguments entry V A : clear implicits.

Section LoadDump.
(** What a JSON or YAML file parses to, and the library calls made: each
    reads or writes the file at a path and may raise. *)
Context {E D V A : Type}.
Variable splitext : string -> string * string.
Variable json_load yaml_safe_load : string -> E + D.
Variable h5py_File : string -> E + (list (string * A) * h5obj E V).
Variable json_dump yaml_dump : D -> string -> E + unit.

(** What [local_load] returns. *)
Inductive loaded : Type :=
| Parsed (data : D)
| FromHdf5 (data : dict (entry V A)).

Definition unsupported (path : string) : error E :=
  ValueError ("Unsupported file format: " ++ path).

Definition local_load (path : string) : result E loaded :=
  let ext := snd (splitext path) in
  if String.eqb ext ".json" then
    data <~ library (json_load path) ;; Return (Parsed data)
  else if String.eqb ext ".yaml" || String.eqb ext ".yml" then
    data <~ library (yaml_safe_load path) ;; Return (Parsed data)
  else if String.eqb ext ".hd5" || String.eqb ext ".h5" || String.eqb ext ".hdf5" then
    file <~ library (h5py_File path) ;;
    data <~ hdf5_to_dict (fst file) (snd file) ;;
    Return (FromHdf5 data)
  else Raise loaded (unsupported path).

(** [self.local_dump(path)] with [self.configs] at [configs]. *)
Definition local_dump (configs : D) (path : string) : result E unit :=
  let ext := snd (splitext path) in
  if String.eqb ext ".json" then library (json_dump configs path)
  else if String.eqb ext ".yaml" || String.eqb ext ".yml" then
    library (yaml_dump configs path)
  else Raise unit (unsupported path).

(** [Handler(config_path).configs] *)
Definition Handler_init (config_path : option string) : result E (option loaded) :=
  match config_path with
  | Some path => data <~ local_load path ;; Return (Some data)
  | None => Return None
  end.
End LoadDump.

End Files.

(* ================================================================== *)
(** ** class DatabaseHandler *)
(* ================================================================== *)

Module Database.
Import Py Py.Notations.
Local Open Scope py_scope.
Local Open Scope string_scope.

(** The column types [write] asks for. *)
Inductive sqltype : Type :=
| MysqlTimestamp (fsp : nat)
| PostgresqlTimestamp (precision : nat)
| SqliteDatetime (storage_format : string)
| OracleTimestamp
| MssqlTimestamp.

Definition sqlite_storage_format : string :=
  "%(year)04d-%(month)02d-%(day)02d %(hour)02d:%(minute)02d:%(second)02d.%(microsecond)03d".

Section Properties.
Context {E : Type}.

(** The properties of the class, on [self.configs]. *)
Definition dialect (configs : Configs) : result E cfgval :=
  match configs with
  | None => Return (CStr "unspecified")
  | Some c => item "engine" c
  end.

Definition local_path : string := "local.db".

Definition host (configs : Configs) : result E cfgval :=
  match configs with
  | Some c => if contains "host" c then item "host" c else Return (CStr ".")
  | None => Return (CStr ".")
  end.

Definition database (configs : Configs) : result E cfgval :=
  match configs with
  | Some c => item "database" c
  | None => Return (CStr local_path)
  end.

Definition port (configs : Configs) : result E cfgval :=
  match configs with
  | Some c => if contains "port" c then item "port" c else Return CNone
  | None => Return CNone
  end.

(** The branch [csv_path is None] of [__init__]: the URL it hands to
    [create_engine]. *)
Definition engine_url (configs : Configs) : result E string :=
  d <~ dialect configs ;;
  if eq_str d "unspecified" then Return ("sqlite:///" ++ local_path)
  else
  d <~ dialect configs ;;
  if eq_str d "sqlite" then
    db <~ configs_item "database" configs ;;
    Return ("sqlite:///" ++ fmt db ++ ".db")
  else
  d <~ dialect configs ;;
  if in_strs d ["mysql"; "postgresql"; "oracle"; "mssql"] then
    p <~ port configs ;;
    if is_not_None p then
      e <~ configs_item "engine" configs ;;
      c <~ configs_item "connector" configs ;;
      u <~ configs_item "user" configs ;;
      pw <~ configs_item "password" configs ;;
      h <~ host configs ;;
      p <~ port configs ;;
      db <~ database configs ;;
      Return (fmt e ++ "+" ++ fmt c ++ "://" ++ fmt u ++ ":" ++ fmt pw
              ++ "@" ++ fmt h ++ ":" ++ fmt p ++ "/" ++ fmt db)
    else
      e <~ configs_item "engine" configs ;;
      c <~ configs_item "connector" configs ;;
      u <~ configs_item "user" configs ;;
      pw <~ configs_item "password" configs ;;
      h <~ host configs ;;
      db <~ database configs ;;
      Return (fmt e ++ "+" ++ fmt c ++ "://" ++ fmt u ++ ":" ++ fmt pw
              ++ "@" ++ fmt h ++ "/" ++ fmt db)
  else
    e <~ configs_item "engine" configs ;;
    Raise string (ValueError ("Unsupported database engine: " ++ fmt e)).

(** The end of the messages that [read_csv], [exec_sql] and [write] log:
    [%s:%s/%s] of host, port and database, or [%s/%s] of host and
    database when the port is [None]. *)
Definition place (configs : Configs) : result E string :=
  p <~ port configs ;;
  if is_not_None p then
    h <~ host configs ;;
    p <~ port configs ;;
    db <~ database configs ;;
    Return (fmt h ++ ":" ++ fmt p ++ "/" ++ fmt db)
  else
    h <~ host configs ;;
    db <~ database configs ;;
    Return (fmt h ++ "/" ++ fmt db).

Definition read_csv_message (configs : Configs) (path table : string)
  : result E string :=
  pl <~ place configs ;;
  Return ("Loading csv " ++ path ++ " into database " ++ pl ++ " at table " ++ table).

Definition exec_sql_message (configs : Configs) : result E string :=
  pl <~ place configs ;; Return ("Downloading from database " ++ pl).

Definition write_message (configs : Configs) : result E string :=
  pl <~ place configs ;; Return ("Uploading to database " ++ pl).

(** [__init__] up to the library calls: the URL handed to
    [create_engine] and, with a [csv_path], the message [read_csv] logs
    before it reads the file.  [splitext] is [os.path.splitext]. *)
Definition init (splitext : string -> string * string) (configs : Configs)
    (csv_path table_name : option string) : result E (string * option string) :=
  match csv_path with
  | Some path =>
      let url := "sqlite:///" ++ local_path in
      let name := match table_name with
                  | None => fst (splitext path)
                  | Some name => name
                  end in
      msg <~ read_csv_message configs path name ;;
      Return (url, Some msg)
  | None => url <~ engine_url configs ;; Return (url, None)
  end.

(** The type [write] asks for a column of [datetime] values, by
    dialect; none for a dialect it does not name. *)
Definition timestamp_type (configs : Configs) : result E (option sqltype) :=
  d <~ dialect configs ;;
  if eq_str d "mysql" then Return (Some (MysqlTimestamp 3))
  else
  d <~ dialect configs ;;
  if eq_str d "postgresql" then Return (Some (PostgresqlTimestamp 3))
  else
  d <~ dialect configs ;;
  if in_strs d ["unspecified"; "sqlite"] then
    Return (Some (SqliteDatetime sqlite_storage_format))
  else
  d <~ dialect configs ;;
  if eq_str d "oracle" then Return (Some OracleTimestamp)
  else
  d <~ dialect configs ;;
  if eq_str d "mssql" then Return (Some MssqlTimestamp)
  else Return None.

Section Write.
(** The values of the data, with [isinstance(v, datetime.datetime)]. *)
Context {V : Type}.
Variable is_datetime : V -> bool.

(** [l[0]] *)
Definition first (l : list V) : result E V :=
  match l with
  | v :: _ => Return v
  | [] => Raise V IndexError
  end.


(** The loop of [write] that fills [type_dict], over the keys [ks] still
    to come. *)
Fixpoint type_dict_loop (configs : Configs) (data : dict (list V))
    (ks : list string) (type_dict : dict sqltype) : result E (dict sqltype) :=
  match ks with
  | [] => Return type_dict
  | key :: rest =>
      col <~ item key data ;;
      v <~ first col ;;
      if is_datetime v then
        t <~ timestamp_type configs ;;
        match t with
        | Some ty => type_dict_loop configs data rest (setitem key ty type_dict)
        | None => type_dict_loop configs data rest type_dict
        end
      else type_dict_loop configs data rest type_dict
  end.

Definition type_dict (configs : Configs) (data : dict (list V))
  : result E (dict sqltype) :=
  type_dict_loop configs data (keys data) [].

(** The library under [write]: [pd.DataFrame(data)], which may raise,
    and [df.to_sql(...)] on the state [S] of the database. *)
Context {S : Type}.
Variable DataFrame : dict (list V) -> option E.
Variable to_sql : S -> dict (list V) -> string -> dict sqltype -> S * option E.

(** [write(data, table)] on a handler with the configuration [configs],
    the database being in state [s]: the state it leaves and what it
    raised, if it did. *)
Definition write (h : Configs * S) (data : dict (list V)) (table : string)
  : (Configs * S) * option (error E) :=
  match write_message (fst h) with
  | Raise _ e => (h, Some e)
  | Return _ =>
      match DataFrame data with
      | Some e => (h, Some (LibraryError e))
      | None =>
          match type_dict (fst h) data with
          | Raise _ e => (h, Some e)
          | Return td =>
              let (s', r) := to_sql (snd h) data table td in
              ((fst h, s'),
               match r with
               | Some e => Some (LibraryError e)
               | None => None
               end)
          end
      end
  end.

(** A [DatabaseHandler] as the sink of a [DataWriter]. *)
Definition database_sink : Sink V :=
  {| Handler := Configs * S;
     SinkExn := error E;
     handler_write := write |}.
End Write.
End Properties.

End Database.

(* ================================================================== *)
(** ** class DocumentStore *)
(* ================================================================== *)

Module Documents.
Import Py Py.Notations.
Local Open Scope py_scope.
Local Open Scope string_scope.

Section DocumentStore.
Context {E Client : Type}.

(** [pymongo.MongoClient(url)] *)
Variable MongoClient : string -> E + Client.

(** The properties of the class: each is [self.configs[...]]. *)
Definition engine (configs : Configs) : result E cfgval := configs_item "engine" configs.
Definition port (configs : Configs) : result E cfgval := configs_item "port" configs.
Definition host (configs : Configs) : result E cfgval := configs_item "host" configs.
Definition database (configs : Configs) : result E cfgval := configs_item "database" configs.

(** [__init__] after the configuration is loaded.  The local variable
    [client] is bound only in the branch of the [if]; the result is the
    client and the name of the database [self.store] is taken from. *)
Definition init (configs : Configs) : result E (Client * cfgval) :=
  e <~ engine configs ;;
  client <~ (if eq_str e "mongodb" then
               h <~ host configs ;;
               p <~ port configs ;;
               c <~ library (MongoClient ("mongodb://" ++ fmt h ++ ":" ++ fmt p)) ;;
               Return (Some c)
             else Return None) ;;
  match client with
  | Some c => db <~ database configs ;; Return (c, db)
  | None => Raise (Client * cfgval) (UnboundLocalError "client")
  end.

(** The message [write] logs before it inserts the document. *)
Definition write_message (configs : Configs) (collection : string)
  : result E string :=
  e <~ engine configs ;;
  db <~ database configs ;;
  Return ("Uploading to document store " ++ fmt e ++ "://" ++ fmt db
          ++ "/" ++ collection).
End DocumentStore.

End Documents.

(* ================================================================== *)
(** ** class Session *)
(* ================================================================== *)

Module Sessions.
Import Py Py.Notations.
Local Open Scope py_scope.
Local Open Scope string_scope.

Section Session.
Context {E : Type}.

(** [Handler.local_load] on a configuration path that is not [None],
    when it returns a [dict]. *)
Variable local_load : cfgval -> result E (dict cfgval).

(** [Handler(config_path).configs] *)
Definition Handler_configs (config_path : cfgval) : result E Configs :=
  if is_not_None config_path then
    c <~ local_load config_path ;; Return (Some c)
  else Return None.

(** The property [use_local_db]: [not 'database' in self.configs.keys()]. *)
Definition use_local_db (configs : Configs) : result E bool :=
  match configs with
  | Some c => Return (negb (contains "database" c))
  | None =>
      Raise bool (AttributeError "'NoneType' object has no attribute 'keys'")
  end.

(** What [Session(config_path)] holds: the configuration of the session,
    the configuration of its database handler and the URL of the engine
    of that handler. *)
Record session : Type := mkSession {
  configs : Configs;
  database_configs : Configs;
  database_url : string
}.

Definition init (config_path : cfgval) : result E session :=
  cfg <~ Handler_configs config_path ;;
  local <~ use_local_db cfg ;;
  if negb local then
    path <~ configs_item "database" cfg ;;
    dbcfg <~ Handler_configs path ;;
    url <~ Database.engine_url dbcfg ;;
    Return (mkSession cfg dbcfg url)
  else
    dbcfg <~ Handler_configs CNone ;;
    url <~ Database.engine_url dbcfg ;;
    Return (mkSession cfg dbcfg url).
End Session.

End Sessions.

(* ================================================================== *)
(** ** class EmailHandler *)
(* ================================================================== *)

Module Mail.
Import Py.
Local Open Scope string_scope.

(** ['gmail' in account] *)
Definition has_substring (sub s : string) : bool :=
  match String.index 0 sub s with
  | Some _ => true
  | None => false
  end.

(** The attributes of an [EmailHandler]: [sender] always, and
    [smtp_server], [smtp_port] and [password] together or not at all. *)
Record EmailHandler : Type := mkEmailHandler {
  sender : string;
  smtp : option (string * Z * string)
}.

Definition init (account password : string) : EmailHandler :=
  mkEmailHandler account
    (if has_substring "gmail" account
     then Some ("smtp.gmail.com", 587, password)
     else None).

(** The message [send] builds. *)
Record message : Type := mkMessage {
  From : string;
  To : string;
  Subject : string;
  body : string
}.

(** The calls [send] makes to [smtplib], as the network sees them. *)
Inductive smtp_call : Type :=
| Connect (server : string) (port : Z)
| StartTls
| Login (user password : string)
| SendMail (from_addr to_addr msg : string)
| Quit.

Section Send.
(** [smtplib]: the state of the network, a connection, what is raised
    during the calls, and the calls; [as_string] is [msg.as_string()].
    [is_Exception e] is [isinstance(e, Exception)]: it holds of the
    errors of [smtplib] and of the operating system, and not of
    [KeyboardInterrupt] or [SystemExit]. *)
Context {Net Server E : Type}.
Variable is_Exception : E -> bool.
Variable SMTP : string -> Z -> Net -> Net * (E + Server).
Variable starttls : Server -> Net -> Net * option E.
Variable login : Server -> string -> string -> Net -> Net * option E.
Variable sendmail : Server -> string -> string -> string -> Net -> Net * option E.
Variable quit : Server -> Net -> Net * option E.
Variable as_string : message -> string.

(** What the logger is given. *)
Inductive log_record : Type :=
| Info (msg : string)
| Error (msg : string) (e : error E).

(** The world of a call of [send]: the network, the calls made to it, the
    log, both oldest first, and the local variable [server], unbound at
    first. *)
Record frame : Type := mkFrame {
  net : Net;
  calls : list smtp_call;
  log : list log_record;
  server : option Server
}.

Definition Step (A : Type) : Type := M (error E) frame A.

(** A call into [smtplib] that returns nothing: it is on record, it
    changes the network, and it raises or not. *)
Definition library_call (c : smtp_call) (f : Net -> Net * option E) : Step unit :=
  fun fr =>
    let (n', r) := f (net fr) in
    let fr' := mkFrame n' (calls fr ++ [c]) (log fr) (server fr) in
    match r with
    | None => (Return tt, fr')
    | Some e => (Raise unit (LibraryError e), fr')
    end.

(** [server = smtplib.SMTP(host, port)] *)
Definition connect (host : string) (port : Z) : Step unit :=
  fun fr =>
    let (n', r) := SMTP host port (net fr) in
    match r with
    | inr s =>
        (Return tt, mkFrame n' (calls fr ++ [Connect host port]) (log fr) (Some s))
    | inl e =>
        (Raise unit (LibraryError e),
         mkFrame n' (calls fr ++ [Connect host port]) (log fr) (server fr))
    end.

(** Reading the local variable [server]. *)
Definition the_server : Step Server :=
  fun fr =>
    match server fr with
    | Some s => (Return s, fr)
    | None => (Raise Server (UnboundLocalError "server"), fr)
    end.

Definition logger (r : log_record) : Step unit :=
  modify (fun fr => mkFrame (net fr) (calls fr) (log fr ++ [r]) (server fr)).

(** [self.smtp_server], [self.smtp_port] and [self.password]. *)
Definition attribute {A} (name : string) (v : option A) : Step A :=
  match v with
  | Some a => ret a
  | None =>
      raise (AttributeError
               ("'EmailHandler' object has no attribute '" ++ name ++ "'"))
  end.

(** [isinstance(e, Exception)] for all that can be raised here: the
    errors Python itself raises are all of class [Exception]. *)
Definition is_exception (e : error E) : bool :=
  match e with
  | LibraryError x => is_Exception x
  | _ => true
  end.

(** [final], then [e] raised again unless [final] raises itself. *)
Definition finally_reraise (e : error E) (final : Step unit) : Step unit :=
  fun fr =>
    match final fr with
    | (Return _, fr') => (Raise unit e, fr')
    | (Raise _ e', fr') => (Raise unit e', fr')
    end.

(** [try: body except Exception as e: handler(e) finally: final].  What
    is not an [Exception] passes the [except] clause by: [final] runs and
    it is raised again. *)
Definition try_except_finally (body : Step unit) (handler : error E -> Step unit)
    (final : Step unit) : Step unit :=
  fun fr =>
    match body fr with
    | (Return _, fr1) => final fr1
    | (Raise _ e, fr1) =>
        if is_exception e then
          match handler e fr1 with
          | (Return _, fr2) => final fr2
          | (Raise _ e', fr2) => finally_reraise e' final fr2
          end
        else finally_reraise e final fr1
    end.

(** The body of the [try] of [send]. *)
Definition send_body (self : EmailHandler) (receiver : string) (msg : message)
  : Step unit :=
  smtp_server <- attribute "smtp_server" (option_map (fun x => fst (fst x)) (smtp self)) ;;
  smtp_port <- attribute "smtp_port" (option_map (fun x => snd (fst x)) (smtp self)) ;;
  connect smtp_server smtp_port ;;
  s <- the_server ;;
  library_call StartTls (starttls s) ;;
  s <- the_server ;;
  password <- attribute "password" (option_map snd (smtp self)) ;;
  library_call (Login (sender self) password) (login s (sender self) password) ;;
  s <- the_server ;;
  library_call (SendMail (sender self) receiver (as_string msg))
               (sendmail s (sender self) receiver (as_string msg)) ;;
  logger (Info "Email sent successfully!").

Definition send (self : EmailHandler) (receiver subject text : string) : Step unit :=
  let msg := mkMessage (sender self) receiver subject text in
  try_except_finally
    (send_body self receiver msg)
    (fun e => logger (Error "An error occurred while sending the email: " e))
    (s <- the_server ;; library_call Quit (quit s)).

(** A call of [send] starts with no call made, nothing logged and
    [server] unbound. *)
Definition start (n : Net) : frame := mkFrame n [] [] None.
End Send.

End Mail.

(* ================================================================== *)
(** ** Samples to run the other classes on *)
(* ================================================================== *)

Module Samples.
Import Py.
Local Open Scope string_scope.

(** An HDF5 file with a group [run] of two datasets and a named datatype,
    and one attribute. *)
Definition sample_file : Files.h5obj string Z :=
  Files.Group [("run", Files.Group [("t", Files.Dataset (inr 1));
                                    ("v", Files.Dataset (inr 2))]);
               ("kind", Files.Other)].

(** The same file with a link that does not resolve after the group. *)
Definition broken_file : Files.h5obj string Z :=
  Files.Group [("run", Files.Group [("t", Files.Dataset (inr 1));
                                    ("v", Files.Dataset (inr 2))]);
               ("old", Files.Unresolved "Unable to open object")].

Definition sample_attrs : list (string * Z) := [("version", 3)].

(** A library for [Handler]: extensions for two known paths, parsers that
    read a number, an HDF5 reader that finds [sample_file], and writers
    that do nothing. *)
Definition splitext (path : string) : string * string :=
  if String.eqb path "conf.json" then ("conf", ".json")
  else if String.eqb path "data.h5" then ("data", ".h5")
  else (path, "").

Definition json_load (path : string) : string + Z := inr 7.
Definition yaml_safe_load (path : string) : string + Z := inr 8.
Definition h5py_File (path : string)
  : string + (list (string * Z) * Files.h5obj string Z) :=
  inr (sample_attrs, sample_file).
Definition json_dump (configs : Z) (path : string) : string + unit := inr tt.
Definition yaml_dump (configs : Z) (path : string) : string + unit := inr tt.

(** Configurations of a [DatabaseHandler]. *)
Definition mysql_config : dict cfgval :=
  [("engine", CStr "mysql"); ("connector", CStr "pymysql");
   ("user", CStr "ann"); ("password", CStr "pw"); ("host", CStr "db.lab");
   ("port", COther "3306"); ("database", CStr "lab")].

Definition unspecified_config : dict cfgval := [("engine", CStr "unspecified")].

Definition redis_config : dict cfgval :=
  [("engine", CStr "redis"); ("database", CStr "lab")].

Definition mongo_config : dict cfgval :=
  [("engine", CStr "mongodb"); ("host", CStr "db.lab");
   ("port", COther "27017"); ("database", CStr "lab")].

(** Values of the data written to a database: numbers and [datetime]s. *)
Inductive reading : Type :=
| Num (z : Z)
| Stamp (t : Z).

Definition is_stamp (r : reading) : bool :=
  match r with
  | Stamp _ => true
  | Num _ => false
  end.

(** A [pandas] that accepts every frame and a database that counts the
    calls of [to_sql]. *)
Definition DataFrame (data : dict (list reading)) : option string := None.

Definition to_sql (s : nat) (data : dict (list reading)) (table : string)
    (dtype : dict Database.sqltype) : nat * option string :=
  (S s, None).

Definition reading_sink : Sink reading :=
  Database.database_sink (E := string) is_stamp DataFrame to_sql.

(** A writer on that database with one record in its buffer. *)
Definition reading_writer : World (sink := reading_sink) :=
  mkWorld (sink := reading_sink)
    (mkDataWriter (sink := reading_sink)
       ((Some mysql_config, 0%nat) : Handler (Sink := reading_sink))
       2 "readings" [("t", [Stamp 1]); ("v", [Num 10])]) [].

Definition stamped (t v : Z) : Data reading := [("t", Stamp t); ("v", Num v)].

(** A [pymongo] whose client is the URL it was made for. *)
Definition MongoClient (url : string) : string + string := inr url.

(** A [local_load] that knows one session file, without [database]. *)
Definition session_load (path : cfgval) : result string (dict cfgval) :=
  if eq_str path "session.json" then Return [("name", CStr "demo")]
  else Raise (dict cfgval) (ValueError ("Unsupported file format: " ++ fmt path)).

(** An [smtplib] on a network that is a counter of calls: the server
    [smtp.gmail.com] answers, any other is refused; [login] fails on the
    password [wrong] and is interrupted from the keyboard on the password
    [slow]; all else goes through. *)
Definition is_Exception (e : string) : bool :=
  negb (String.eqb e "KeyboardInterrupt").

Definition SMTP (host : string) (port : Z) (n : nat) : nat * (string + unit) :=
  if String.eqb host "smtp.gmail.com" then (S n, inr tt)
  else (S n, inl "connection refused").

Definition refused_SMTP (host : string) (port : Z) (n : nat)
  : nat * (string + unit) :=
  (S n, inl "connection refused").

Definition starttls (s : unit) (n : nat) : nat * option string := (S n, None).

Definition login (s : unit) (user password : string) (n : nat)
  : nat * option string :=
  if String.eqb password "wrong" then (S n, Some "authentication failed")
  else if String.eqb password "slow" then (S n, Some "KeyboardInterrupt")
  else (S n, None).

Definition sendmail (s : unit) (from_addr to_addr msg : string) (n : nat)
  : nat * option string := (S n, None).

Definition quit (s : unit) (n : nat) : nat * option string := (S n, None).

Definition as_string (m : Mail.message) : string :=
  "Subject: " ++ Mail.Subject m ++ " / " ++ Mail.body m.

End Samples.

(* ================================================================== *)
(** ** Facts about dictionaries *)
(* ================================================================== *)

Section DictFacts.
Context {A : Type}.
Implicit Types (d : dict A) (k : string).

Lemma existsb_eqb_In k (l : list string) :
  existsb (String.eqb k) l = true <-> In k l.
Proof.
  rewrite existsb_exists. split.
  - intros [x [Hin Heq]]. apply String.eqb_eq in Heq. now subst.
  - intros Hin. exists k. split; [assumption | apply String.eqb_refl].
Qed.

Lemma contains_In k d : contains k d = true <-> In k (keys d).
Proof. apply existsb_eqb_In. Qed.

Lemma contains_false_In k d : contains k d = false <-> ~ In k (keys d).
Proof.
  rewrite <- contains_In. destruct (contains k d); split; congruence.
Qed.

Lemma nodupb_NoDup (l : list string) : nodupb l = true <-> NoDup l.
Proof.
  induction l as [|k l IH]; simpl.
  - split; [constructor | reflexivity].
  - rewrite andb_true_iff, negb_true_iff, IH. split.
    + intros [Hk Hl]. constructor; [|assumption].
      intros Hin. apply existsb_eqb_In in Hin. congruence.
    + intros Hnd. inversion Hnd as [|? ? Hk Hl]; subst. split; [|assumption].
      destruct (existsb (String.eqb k) l) eqn:E; [|reflexivity].
      apply existsb_eqb_In in E. contradiction.
Qed.

Lemma wfb_wf d : wfb d = true -> wf d.
Proof. apply nodupb_NoDup. Qed.

Lemma getitem_None k d : getitem k d = None <-> ~ In k (keys d).
Proof.
  induction d as [|[k' v] r IH]; simpl.
  - tauto.
  - destruct (String.eqb_spec k k') as [->|Hne].
    + split; [discriminate | intros H; exfalso; apply H; now left].
    + rewrite IH. split.
      * intros H [Heq|Hin]; [congruence | contradiction].
      * intros H Hin. apply H. now right.
Qed.

Lemma getitem_contains k d :
  contains k d = true -> exists v, getitem k d = Some v.
Proof.
  intros Hc. destruct (getitem k d) as [v|] eqn:E; [now exists v|].
  apply getitem_None in E. apply contains_In in Hc. contradiction.
Qed.

(** On a stored key, an assignment rewrites the one entry of that key. *)
Lemma setitem_as_map k d (old v : A) :
  wf d -> getitem k d = Some old ->
  setitem k v d = map (fun kv => if String.eqb k (fst kv) then (fst kv, v) else kv) d.
Proof.
  unfold wf. induction d as [|[k' v'] r IH]; simpl; intros Hnd Hg.
  - discriminate.
  - inversion Hnd as [|? ? Hk Hr]; subst.
    destruct (String.eqb_spec k k') as [->|Hne].
    + f_equal. symmetry.
      transitivity (map (fun x : string * A => x) r); [|apply map_id].
      apply map_ext_in. intros [k2 v2] Hin. simpl.
      destruct (String.eqb_spec k' k2) as [->|]; [|reflexivity].
      exfalso. apply Hk. change k2 with (fst (k2, v2)). now apply in_map.
    + f_equal. now apply IH.
Qed.

Lemma getitem_In k d (v : A) : wf d -> In (k, v) d -> getitem k d = Some v.
Proof.
  unfold wf. induction d as [|[k' v'] r IH]; simpl; intros Hnd Hin.
  - contradiction.
  - inversion Hnd as [|? ? Hk Hr]; subst.
    destruct Hin as [Heq|Hin].
    + inversion Heq; subst. now rewrite String.eqb_refl.
    + destruct (String.eqb_spec k k') as [->|]; [|now apply IH].
      exfalso. apply Hk. change k' with (fst (k', v)). now apply in_map.
Qed.

Lemma keys_map_snd {B} (f : string * A -> B) d :
  keys (map (fun kv => (fst kv, f kv)) d) = keys d.
Proof.
  unfold keys. rewrite map_map. apply map_ext. reflexivity.
Qed.

Lemma getitem_map_snd {B} (f : string * A -> B) k d :
  getitem k (map (fun kv => (fst kv, f kv)) d)
  = match getitem k d with Some v => Some (f (k, v)) | None => None end.
Proof.
  induction d as [|[k' v] r IH]; simpl; [reflexivity|].
  destruct (String.eqb_spec k k') as [->|]; [reflexivity | apply IH].
Qed.

Lemma getitem_filter_other k k' d :
  k' <> k ->
  getitem k' (filter (fun kv => negb (String.eqb k (fst kv))) d) = getitem k' d.
Proof.
  intros Hne. induction d as [|[k2 v] r IH]; simpl; [reflexivity|].
  destruct (String.eqb_spec k k2) as [->|Hk]; simpl.
  - destruct (String.eqb_spec k' k2); [contradiction | apply IH].
  - destruct (String.eqb_spec k' k2); [reflexivity | apply IH].
Qed.

Lemma keys_filter_NoDup k d :
  wf d -> wf (filter (fun kv => negb (String.eqb k (fst kv))) d).
Proof.
  unfold wf. induction d as [|[k2 v] r IH]; simpl; intros Hnd; [constructor|].
  inversion Hnd as [|? ? Hk Hr]; subst.
  destruct (String.eqb k k2); simpl; [now apply IH|].
  constructor; [|now apply IH].
  intros Hin. apply Hk. unfold keys in *. apply in_map_iff in Hin.
  destruct Hin as [x [Hx Hin]]. apply filter_In in Hin.
  apply in_map_iff. exists x. tauto.
Qed.
End DictFacts.

(* ================================================================== *)
(** ** What the methods compute *)
(* ================================================================== *)

Section WriterFacts.
Context {Value : Type} {sink : Sink Value}.
Implicit Types (w : World) (d : Data Value) (b : Buffer Value) (k : string).

Lemma set_buffer_same w : set_buffer (_buffer (self w)) w = w.
Proof. destruct w as [[h c t b] calls]. reflexivity. Qed.

(** [_buf_size] returns, and returns the length of the first column. *)
Lemma _buf_size_spec w :
  _buf_size w = (Return (buf_len (_buffer (self w))), w).
Proof.
  unfold _buf_size, bind, get, lookup, ret. simpl.
  destruct (_buffer (self w)) as [|[k c] r]; simpl; [reflexivity|].
  now rewrite String.eqb_refl.
Qed.

(** One turn of the loop of [_append_buffer]. *)
Lemma _append_key_spec d k v w :
  wf (_buffer (self w)) -> getitem k d = Some v ->
  _append_key d k w
  = (Return tt,
     set_buffer
       (map (fun kc => (fst kc, if String.eqb k (fst kc)
                                then (snd kc ++ [v])%list else snd kc))
            (_buffer (self w))) w).
Proof.
  intros Hwf Hd. unfold _append_key, bind, get. simpl.
  destruct (contains k (_buffer (self w))) eqn:Hc.
  - destruct (getitem_contains _ _ Hc) as [col Hcol].
    unfold lookup, ret, modify. rewrite Hcol, Hd. f_equal. f_equal.
    rewrite (setitem_as_map k _ col _ Hwf Hcol). apply map_ext_in.
    intros [k' c'] Hin. simpl.
    destruct (String.eqb_spec k k') as [->|]; [|reflexivity].
    rewrite (getitem_In k' _ c' Hwf Hin) in Hcol. now inversion Hcol.
  - unfold ret. f_equal. rewrite <- (set_buffer_same w) at 1. f_equal.
    symmetry. transitivity (map (fun x : string * list Value => x) (_buffer (self w)));
      [|apply map_id].
    apply map_ext_in. intros [k' c'] Hin. simpl.
    destruct (String.eqb_spec k k') as [->|]; [|reflexivity].
    exfalso. apply contains_false_In in Hc. apply Hc.
    change k' with (fst (k', c')). now apply in_map.
Qed.

Lemma append_loop d ks :
  NoDup ks -> (forall k, In k ks -> In k (keys d)) ->
  forall w, wf (_buffer (self w)) ->
  for_each ks (_append_key d) w
  = (Return tt,
     set_buffer
       (map (fun kc => (fst kc,
                        (snd kc ++ (if existsb (String.eqb (fst kc)) ks
                                    then cell (fst kc) d else []))%list))
            (_buffer (self w))) w).
Proof.
  induction ks as [|k ks IH]; intros Hnd Hin w Hwf; simpl.
  - unfold ret. f_equal. rewrite <- (set_buffer_same w) at 1. f_equal.
    symmetry. transitivity (map (fun x : string * list Value => x) (_buffer (self w)));
      [|apply map_id].
    apply map_ext. intros [k c]. simpl. now rewrite app_nil_r.
  - inversion Hnd as [|? ? Hk Hks]; subst.
    destruct (getitem_contains k d) as [v Hv].
    { apply contains_In, Hin. now left. }
    unfold bind at 1. rewrite (_append_key_spec d k v w Hwf Hv).
    rewrite IH; auto.
    + f_equal. simpl. unfold set_buffer at 1. simpl. unfold set_buffer.
      f_equal. f_equal. rewrite map_map. apply map_ext.
      intros [k' c']. simpl. f_equal.
      rewrite (String.eqb_sym k' k).
      destruct (String.eqb_spec k k') as [->|]; simpl; [|reflexivity].
      assert (existsb (String.eqb k') ks = false) as ->.
      { destruct (existsb (String.eqb k') ks) eqn:E; [|reflexivity].
        apply existsb_eqb_In in E. contradiction. }
      unfold cell. rewrite Hv. now rewrite app_nil_r.
    + intros k' Hk'. apply Hin. now right.
    + simpl. unfold wf. rewrite keys_map_snd. exact Hwf.
Qed.

Lemma extend_one d b :
  extend [d] b = map (fun kc => (fst kc, (snd kc ++ cell (fst kc) d)%list)) b.
Proof.
  unfold extend, column. apply map_ext. intros [k c]. simpl.
  now rewrite app_nil_r.
Qed.

(** [_append_buffer] returns, and adds to each column what the record
    has under its key. *)
Lemma _append_buffer_spec d w :
  wf d -> wf (_buffer (self w)) ->
  _append_buffer d w = (Return tt, set_buffer (extend [d] (_buffer (self w))) w).
Proof.
  intros Hd Hw. unfold _append_buffer.
  rewrite append_loop; auto. f_equal. f_equal.
  rewrite extend_one. apply map_ext. intros [k c]. simpl. f_equal. f_equal.
  destruct (existsb (String.eqb k) (keys d)) eqn:E; [reflexivity|].
  unfold cell. fold (contains k d) in E.
  apply contains_false_In, getitem_None in E. now rewrite E.
Qed.

Lemma keys_extend ds b : keys (extend ds b) = keys b.
Proof. unfold extend. apply keys_map_snd. Qed.

Lemma wf_extend ds b : wf b -> wf (extend ds b).
Proof. unfold wf. now rewrite keys_extend. Qed.

Lemma extend_nil b : extend [] b = b.
Proof.
  unfold extend. simpl.
  transitivity (map (fun x : string * list Value => x) b); [|apply map_id].
  apply map_ext. intros [k c]. simpl. now rewrite app_nil_r.
Qed.

Lemma extend_app ds1 ds2 b : extend ds2 (extend ds1 b) = extend (ds1 ++ ds2) b.
Proof.
  unfold extend, column. rewrite map_map. apply map_ext.
  intros [k c]. simpl. now rewrite flat_map_app, app_assoc.
Qed.

Lemma getitem_extend k ds b :
  getitem k (extend ds b)
  = match getitem k b with
    | Some col => Some (col ++ column k ds)%list
    | None => None
    end.
Proof. unfold extend. now rewrite getitem_map_snd. Qed.

Lemma buf_len_extend_ge ds b : (buf_len b <= buf_len (extend ds b))%nat.
Proof.
  destruct b as [|[k c] r]; simpl; [lia|]. rewrite length_app. lia.
Qed.

Lemma column_length k ds :
  Forall (fun d => contains k d = true) ds -> length (column k ds) = length ds.
Proof.
  induction 1 as [|d ds Hd Hds IH]; simpl; [reflexivity|].
  rewrite length_app, IH. unfold cell.
  destruct (getitem_contains _ _ Hd) as [v ->]. reflexivity.
Qed.

Lemma populated_key b d k :
  populated b d = true -> In k (keys b) -> contains k d = true.
Proof.
  unfold populated. rewrite forallb_forall. auto.
Qed.

(** Fully populated records make the first column grow by one each. *)
Lemma buf_len_extend ds b :
  b <> [] -> Forall (fun d => populated b d = true) ds ->
  buf_len (extend ds b) = (buf_len b + length ds)%nat.
Proof.
  intros Hb Hp. destruct b as [|[k c] r]; [congruence|]. simpl.
  rewrite length_app, column_length; [reflexivity|].
  eapply Forall_impl; [|exact Hp]. intros d Hd.
  apply (populated_key _ d k Hd). now left.
Qed.
End WriterFacts.

(* ================================================================== *)
(** ** flush and write *)
(* ================================================================== *)

(** Split on the test [self._buf_size >= self._buf_capacity] of [write]. *)
Ltac case_geb :=
  match goal with
  | |- context [Z.geb ?n ?c] => destruct (Z.geb_spec n c)
  end.

Section FlushWrite.
Context {Value : Type} {sink : Sink Value} {cls : Resetter}.
Implicit Types (w : World) (d : Data Value) (b : Buffer Value).

Lemma flush_spec w :
  flush w
  = if 0 <? Z.of_nat (buf_len (_buffer (self w)))
    then (call_handler_write ;; _reset_buffer) w
    else (Return tt, w).
Proof.
  unfold flush. unfold bind at 1. rewrite _buf_size_spec.
  destruct (0 <? Z.of_nat (buf_len (_buffer (self w)))); reflexivity.
Qed.

Lemma flush_empty w : buf_len (_buffer (self w)) = 0%nat -> flush w = (Return tt, w).
Proof. intros H. rewrite flush_spec, H. reflexivity. Qed.

Lemma flush_raise w h' e :
  (0 < buf_len (_buffer (self w)))%nat ->
  handler_write (_handler (self w)) (_buffer (self w)) (_table (self w))
    = (h', Some e) ->
  flush w = (Raise unit (SinkError e), sent h' w).
Proof.
  intros Hn Hs. rewrite flush_spec.
  destruct (Z.ltb_spec 0 (Z.of_nat (buf_len (_buffer (self w))))); [|lia].
  unfold bind, call_handler_write. now rewrite Hs.
Qed.

Lemma flush_ok w h' :
  (0 < buf_len (_buffer (self w)))%nat ->
  handler_write (_handler (self w)) (_buffer (self w)) (_table (self w))
    = (h', None) ->
  flush w = _reset_buffer (sent h' w).
Proof.
  intros Hn Hs. rewrite flush_spec.
  destruct (Z.ltb_spec 0 (Z.of_nat (buf_len (_buffer (self w))))); [|lia].
  unfold bind, call_handler_write. now rewrite Hs.
Qed.

(** Whatever the sink answers, a flush of a buffer with a first column
    that is not empty puts exactly one call on record. *)
Lemma flush_calls w :
  (0 < buf_len (_buffer (self w)))%nat ->
  (forall w', sink_calls (snd (_reset_buffer w')) = sink_calls w') ->
  sink_calls (snd (flush w))
  = (sink_calls w ++ [(_buffer (self w), _table (self w))])%list.
Proof.
  intros Hn Hr.
  destruct (handler_write (_handler (self w)) (_buffer (self w)) (_table (self w)))
    as [h' [e|]] eqn:Hs.
  - now rewrite (flush_raise w h' e Hn Hs).
  - rewrite (flush_ok w h' Hn Hs), Hr. reflexivity.
Qed.

Lemma write_spec d w :
  wf d -> wf (_buffer (self w)) ->
  write d w
  = if Z.of_nat (buf_len (extend [d] (_buffer (self w)))) >=? _buf_capacity (self w)
    then flush (set_buffer (extend [d] (_buffer (self w))) w)
    else (Return tt, set_buffer (extend [d] (_buffer (self w))) w).
Proof.
  intros Hd Hw. unfold write. unfold bind at 1.
  rewrite (_append_buffer_spec d w Hd Hw).
  unfold bind at 1. rewrite _buf_size_spec.
  unfold bind, get. simpl.
  destruct (Z.of_nat (buf_len (extend [d] (_buffer (self w))))
            >=? _buf_capacity (self w)); reflexivity.
Qed.

Lemma for_each_app {A} (l1 l2 : list A) (body : A -> Call unit) w :
  for_each (l1 ++ l2) body w
  = (for_each l1 body ;; for_each l2 body) w.
Proof.
  revert w. induction l1 as [|x l1 IH]; intros w; simpl.
  - reflexivity.
  - unfold bind. destruct (body x w) as [[[]|e] w1]; [|reflexivity].
    rewrite IH. reflexivity.
Qed.

(** While the first column stays shorter than the capacity, the records
    pile up and nothing else happens. *)
Lemma write_seq_below ds :
  forall w,
  Forall wf ds -> wf (_buffer (self w)) ->
  Z.of_nat (buf_len (extend ds (_buffer (self w)))) < _buf_capacity (self w) ->
  write_seq ds w = (Return tt, set_buffer (extend ds (_buffer (self w))) w).
Proof.
  induction ds as [|d ds IH]; intros w Hds Hw Hlt.
  - simpl. unfold ret. now rewrite extend_nil, set_buffer_same.
  - inversion Hds as [|? ? Hd Hds']; subst.
    change (d :: ds) with ([d] ++ ds)%list in *.
    rewrite <- extend_app in Hlt.
    unfold write_seq. simpl. unfold bind at 1.
    rewrite (write_spec d w Hd Hw).
    pose proof (buf_len_extend_ge ds (extend [d] (_buffer (self w)))) as Hge.
    case_geb; [unfold Data in *; lia|].
    fold (write_seq ds). rewrite IH; simpl; auto using wf_extend.
    now rewrite extend_app.
Qed.

(** The record that makes the first column reach the capacity ends in a
    flush of everything appended so far. *)
Lemma write_seq_fill ds d w :
  Forall wf ds -> wf d -> wf (_buffer (self w)) ->
  Z.of_nat (buf_len (extend ds (_buffer (self w)))) < _buf_capacity (self w) ->
  _buf_capacity (self w)
    <= Z.of_nat (buf_len (extend (ds ++ [d]) (_buffer (self w)))) ->
  write_seq (ds ++ [d]) w
  = flush (set_buffer (extend (ds ++ [d]) (_buffer (self w))) w).
Proof.
  intros Hds Hd Hw Hlt Hge. unfold write_seq.
  rewrite for_each_app. unfold bind at 1.
  fold (write_seq ds). rewrite (write_seq_below ds w Hds Hw Hlt).
  simpl. unfold bind at 1. rewrite write_spec; simpl; auto using wf_extend.
  rewrite extend_app.
  case_geb; [|unfold Data in *; lia].
  destruct (flush _) as [[[]|e] w1]; reflexivity.
Qed.
End FlushWrite.

(* ================================================================== *)
(** ** A derived class with the columns [fields] *)
(* ================================================================== *)

Section ColumnsFacts.
Context {Value : Type} {sink : Sink Value}.
Implicit Types (w : World) (d : Data Value) (b : Buffer Value).

Lemma In_keys_setitem {A} (x k : string) (v : A) (d : dict A) :
  In x (keys (setitem k v d)) <-> x = k \/ In x (keys d).
Proof.
  induction d as [|[k' v'] r IH]; simpl.
  - intuition congruence.
  - destruct (String.eqb_spec k k') as [->|Hne]; simpl.
    + intuition congruence.
    + rewrite IH. intuition congruence.
Qed.

Lemma wf_setitem {A} (k : string) (v : A) (d : dict A) :
  wf d -> wf (setitem k v d).
Proof.
  unfold wf. induction d as [|[k' v'] r IH]; simpl; intros Hnd.
  - constructor; [intros [] | constructor].
  - inversion Hnd as [|? ? Hk Hr]; subst.
    destruct (String.eqb_spec k k') as [->|Hne]; simpl.
    + now constructor.
    + constructor; [|now apply IH].
      intros Hin. apply In_keys_setitem in Hin. destruct Hin; congruence.
Qed.

Lemma all_empty_setitem (k : string) b :
  Forall (fun kc => snd kc = []) b ->
  Forall (fun kc => snd kc = []) (setitem k [] b).
Proof.
  induction 1 as [|[k' c] r Hc Hr IH]; simpl.
  - now repeat constructor.
  - destruct (String.eqb k k'); constructor; auto.
Qed.

Lemma setitem_nonempty {A} (k : string) (v : A) (d : dict A) : setitem k v d <> [].
Proof. destruct d as [|[k' v'] r]; simpl; [|destruct (String.eqb k k')]; discriminate. Qed.

(** What holds of the buffer at every turn of the loop that builds
    [empty_columns]. *)
Lemma empty_columns_from (fields : list string) b :
  wf b -> Forall (fun kc => snd kc = []) b ->
  let b' := fold_left (fun b f => setitem f [] b) fields b in
  wf b' /\ Forall (fun kc => snd kc = []) b' /\ (b <> [] -> b' <> []) /\
  (forall k, In k (keys b') <-> In k (keys b) \/ In k fields).
Proof.
  revert b. induction fields as [|f fields IH]; intros b Hwf Hall; simpl.
  - repeat split; auto; tauto.
  - destruct (IH (setitem f [] b)) as (H1 & H2 & H3 & H4).
    { now apply wf_setitem. }
    { now apply all_empty_setitem. }
    repeat split; auto.
    + intros _. apply H3, setitem_nonempty.
    + intros Hin. apply H4 in Hin. rewrite In_keys_setitem in Hin.
      intuition congruence.
    + intros Hin. apply H4. rewrite In_keys_setitem. intuition congruence.
Qed.

Lemma wf_empty_columns fields : wf (@empty_columns Value fields).
Proof. apply (empty_columns_from fields []); constructor. Qed.

Lemma empty_columns_all_empty fields :
  Forall (fun kc => snd kc = []) (@empty_columns Value fields).
Proof. apply (empty_columns_from fields []); constructor. Qed.

Lemma In_keys_empty_columns fields k :
  In k (keys (@empty_columns Value fields)) <-> In k fields.
Proof.
  assert (Hwf : wf (@nil (string * list Value))) by constructor.
  destruct (empty_columns_from fields [] Hwf (Forall_nil _)) as (_ & _ & _ & H).
  unfold empty_columns. rewrite H. simpl. tauto.
Qed.

(** A record is fully populated when it has every field of the class. *)
Lemma populated_empty_columns fields d :
  populated (empty_columns fields) d = true
  <-> (forall f, In f fields -> contains f d = true).
Proof.
  unfold populated. rewrite forallb_forall. split; intros H f Hf.
  - apply H. now apply In_keys_empty_columns.
  - apply H. now apply (In_keys_empty_columns fields f).
Qed.

Lemma empty_columns_nonempty fields :
  fields <> [] -> @empty_columns Value fields <> [].
Proof.
  destruct fields as [|f fields]; [congruence|]. intros _.
  unfold empty_columns. simpl.
  apply (empty_columns_from fields [(f, [])]); try discriminate.
  - repeat constructor. intros [].
  - now repeat constructor.
Qed.

Lemma buf_len_all_empty b : Forall (fun kc => snd kc = []) b -> buf_len b = 0%nat.
Proof. destruct 1 as [|[k c] r Hc _]; simpl in *; [|subst]; reflexivity. Qed.

Lemma buf_len_empty_columns fields : buf_len (@empty_columns Value fields) = 0%nat.
Proof. apply buf_len_all_empty, empty_columns_all_empty. Qed.

Lemma uniform_all_empty b : Forall (fun kc => snd kc = []) b -> uniform b = true.
Proof.
  intros Hall. unfold uniform. rewrite (buf_len_all_empty b Hall).
  apply forallb_forall. intros kc Hin.
  rewrite Forall_forall in Hall. now rewrite (Hall kc Hin).
Qed.

(** A fully populated record lengthens every column by one. *)
Lemma uniform_extend_one d b :
  populated b d = true -> uniform b = true -> uniform (extend [d] b) = true.
Proof.
  intros Hp Hu. rewrite extend_one. unfold uniform in *.
  rewrite forallb_forall in *. intros kc' Hin.
  apply in_map_iff in Hin. destruct Hin as [[k c] [<- Hin]]. simpl.
  assert (Hcell : forall k0 c0, In (k0, c0) b -> length (cell k0 d) = 1%nat).
  { intros k0 c0 H0. unfold cell.
    destruct (getitem_contains k0 d) as [v ->]; [|reflexivity].
    apply (populated_key b d k0 Hp).
    change k0 with (fst (k0, c0)). now apply in_map. }
  specialize (Hu (k, c) Hin). simpl in Hu. apply Nat.eqb_eq in Hu.
  apply Nat.eqb_eq. rewrite length_app, (Hcell k c Hin), Hu.
  destruct b as [|[k0 c0] r]; [contradiction|]. simpl.
  rewrite length_app, (Hcell k0 c0); [reflexivity | now left].
Qed.

Lemma populated_keys b b' d : keys b = keys b' -> populated b d = populated b' d.
Proof. unfold populated. now intros ->. Qed.

Lemma tabular_wf fields w : tabular fields w -> wf (_buffer (self w)).
Proof. intros [Hk _]. unfold wf. rewrite Hk. apply wf_empty_columns. Qed.

Lemma tabular_reset fields w :
  tabular fields (snd (_reset_buffer (Resetter := Columns fields) w)).
Proof.
  split; simpl; [reflexivity|]. apply uniform_all_empty, empty_columns_all_empty.
Qed.

Lemma tabular_append fields d w :
  wf d -> populated (empty_columns fields) d = true -> tabular fields w ->
  tabular fields (snd (_append_buffer d w)).
Proof.
  intros Hd Hp Hw. rewrite (_append_buffer_spec d w Hd (tabular_wf fields w Hw)).
  destruct Hw as [Hk Hu]. split; simpl.
  - now rewrite keys_extend.
  - apply uniform_extend_one; [|assumption].
    now rewrite (populated_keys _ (empty_columns fields)).
Qed.

Lemma tabular_flush fields w :
  tabular fields w -> tabular fields (snd (flush (cls := Columns fields) w)).
Proof.
  intros Hw. rewrite flush_spec.
  destruct (0 <? Z.of_nat (buf_len (_buffer (self w)))); [|exact Hw].
  unfold bind, call_handler_write.
  destruct (handler_write _ _ _) as [h' [e|]].
  - exact Hw.
  - apply tabular_reset.
Qed.

Lemma tabular_write fields d w :
  wf d -> populated (empty_columns fields) d = true -> tabular fields w ->
  tabular fields (snd (write (cls := Columns fields) d w)).
Proof.
  intros Hd Hp Hw. pose proof (tabular_append fields d w Hd Hp Hw) as Ha.
  rewrite (_append_buffer_spec d w Hd (tabular_wf fields w Hw)) in Ha.
  rewrite (write_spec d w Hd (tabular_wf fields w Hw)).
  case_geb; [now apply tabular_flush | exact Ha].
Qed.
End ColumnsFacts.

(* ================================================================== *)
(** ** The behaviour of the writer *)
(* ================================================================== *)

Section Claims.
Context {Value : Type} {sink : Sink Value}.
Implicit Types (w : World) (d : Data Value) (b : Buffer Value).

Lemma Forall_firstn {A} (P : A -> Prop) (l : list A) n :
  Forall P l -> Forall P (firstn n l).
Proof.
  intros H. revert n. induction H as [|x l Hx Hl IH]; intros [|n]; simpl;
    constructor; auto.
Qed.

Lemma reset_columns_calls fields w :
  sink_calls (snd (_reset_buffer (Resetter := Columns fields) w)) = sink_calls w.
Proof. reflexivity. Qed.

Lemma tabular_run_ops fields os :
  Forall (fun o => Forall (fun d => wf d /\ populated (empty_columns fields) d = true)
                          (op_data o)) os ->
  forall w, tabular fields w ->
  tabular fields (run_ops (cls := Columns fields) os w).
Proof.
  induction 1 as [|o os Ho Hos IH]; intros w Hw; simpl; [exact Hw|].
  apply IH. destruct o as [d|d| |]; simpl in *.
  - inversion Ho as [|? ? [Hd Hp] _]; subst. now apply tabular_write.
  - inversion Ho as [|? ? [Hd Hp] _]; subst. now apply tabular_append.
  - now apply tabular_flush.
  - apply tabular_reset.
Qed.

(** C9.  Constructing the base class [DataWriter] itself raises
    [NotImplementedError], whatever the arguments: [__init__] calls
    [_reset_buffer], which the base class only raises from, so the
    caller never gets an instance. *)
Theorem base_class_constructor_raises
    (handler : Handler) (table : string) (capacity : Z) :
  fst (__init__ (cls := Base) handler table capacity)
  = Raise unit (NotImplementedError "Buffer resetter not implemented."%string)
  /\ new (cls := Base) handler table capacity
     = Raise World (NotImplementedError "Buffer resetter not implemented."%string).
Proof. split; reflexivity. Qed.

(** C8, as the code has it.  The constructor does not look at the
    capacity: with a capacity of zero or less, constructing a derived
    class returns a writer that holds this capacity and an empty buffer,
    and raises nothing. *)
Theorem constructor_accepts_nonpositive_capacity
    (fields : list string) (handler : Handler) (table : string) (capacity : Z) :
  capacity <= 0 ->
  new (cls := Columns fields) handler table capacity
  = Return (mkWorld (mkDataWriter handler capacity table (empty_columns fields)) []).
Proof. intros _. reflexivity. Qed.

(** C6.  [flush()] on a writer whose [_buf_size] is 0 returns without
    calling the sink and leaves the writer, and the sink, as they were. *)
Theorem flush_empty_is_noop {cls : Resetter} w :
  _buf_size w = (Return 0%nat, w) ->
  flush w = (Return tt, w) /\ sink_calls (snd (flush w)) = sink_calls w.
Proof.
  intros H. rewrite _buf_size_spec in H. inversion H as [Hn].
  rewrite (flush_empty w Hn). now split.
Qed.

(** C4.  When the sink raises inside [flush], [flush] raises what the
    sink raised, and at that point the buffer is the one [flush] was
    called with: [_reset_buffer] has not run, [_buf_size] is what it
    was. *)
Theorem flush_raise_buffer_unchanged {cls : Resetter} w (n : nat) h' e :
  _buf_size w = (Return n, w) -> (0 < n)%nat ->
  handler_write (_handler (self w)) (_buffer (self w)) (_table (self w))
    = (h', Some e) ->
  flush w = (Raise unit (SinkError e), sent h' w)
  /\ _buffer (self (snd (flush w))) = _buffer (self w)
  /\ _buf_size (snd (flush w)) = (Return n, snd (flush w)).
Proof.
  intros Hsz Hn Hs. rewrite _buf_size_spec in Hsz. inversion Hsz as [Hlen].
  assert (Hpos : (0 < buf_len (_buffer (self w)))%nat) by lia.
  rewrite (flush_raise w h' e Hpos Hs). simpl.
  repeat split. now rewrite _buf_size_spec.
Qed.

(** C7.  From the construction of a derived class on, whatever sequence
    of [write], [_append_buffer], [flush] and [_reset_buffer] calls is
    made with fully populated records, all the columns of the buffer
    have the same length after each of them, also after a [flush] or a
    [write] that raised. *)
Theorem columns_equal_length_invariant
    (fields : list string) (handler : Handler) (table : string)
    (capacity : Z) (os : list op) (w0 : World) :
  new (cls := Columns fields) handler table capacity = Return w0 ->
  Forall (fun o => Forall (fun d => wf d /\ populated (empty_columns fields) d = true)
                          (op_data o)) os ->
  uniform (_buffer (self (run_ops (cls := Columns fields) os w0))) = true.
Proof.
  intros Hnew Hos. apply (tabular_run_ops fields os Hos).
  inversion Hnew; subst. split; simpl; [reflexivity|].
  apply uniform_all_empty, empty_columns_all_empty.
Qed.

(** C2, for a writer with at least one column.  Starting with
    [_buf_size] at 0, [N] calls of [write] with fully populated records,
    [N] below the capacity, all return, the sink is not called, the
    records are in the buffer and [_buf_size] is [N]. *)
Theorem write_below_capacity_accumulates {cls : Resetter}
    (ds : list (Data Value)) w :
  _buffer (self w) <> [] -> wf (_buffer (self w)) ->
  _buf_size w = (Return 0%nat, w) ->
  Z.of_nat (length ds) < _buf_capacity (self w) ->
  Forall wf ds -> Forall (fun d => populated (_buffer (self w)) d = true) ds ->
  write_seq ds w = (Return tt, set_buffer (extend ds (_buffer (self w))) w)
  /\ sink_calls (snd (write_seq ds w)) = sink_calls w
  /\ _buf_size (snd (write_seq ds w)) = (Return (length ds), snd (write_seq ds w)).
Proof.
  intros Hne Hwf Hsz Hlt Hds Hpop.
  rewrite _buf_size_spec in Hsz. inversion Hsz as [H0].
  pose proof (buf_len_extend ds (_buffer (self w)) Hne Hpop) as Hlen.
  rewrite H0 in Hlen. simpl in Hlen.
  assert (Hbelow : Z.of_nat (buf_len (extend ds (_buffer (self w))))
                   < _buf_capacity (self w)) by (rewrite Hlen; exact Hlt).
  rewrite (write_seq_below ds w Hds Hwf Hbelow). simpl.
  repeat split. rewrite _buf_size_spec. simpl. now rewrite Hlen.
Qed.

(** C1, for a writer with at least one column.  Starting with an empty
    buffer, of [Capacity] calls of [write] with fully populated records
    the first [Capacity - 1] return without calling the sink, and the
    last one calls the sink, once, with all the records and the table;
    when the sink returns, so does [write], and the buffer is empty
    again, with [_buf_size] at 0. *)
Theorem write_capacity_records_flushes_once
    (fields : list string) (ds : list (Data Value)) w :
  fields <> [] ->
  _buffer (self w) = empty_columns fields ->
  0 < _buf_capacity (self w) ->
  Z.of_nat (length ds) = _buf_capacity (self w) ->
  Forall wf ds ->
  Forall (fun d => populated (empty_columns fields) d = true) ds ->
  (forall n, (n < length ds)%nat ->
     write_seq (cls := Columns fields) (firstn n ds) w
     = (Return tt, set_buffer (extend (firstn n ds) (empty_columns fields)) w))
  /\ sink_calls (snd (write_seq (cls := Columns fields) ds w))
     = (sink_calls w ++ [(extend ds (empty_columns fields), _table (self w))])%list
  /\ (forall h',
        handler_write (_handler (self w)) (extend ds (empty_columns fields))
                      (_table (self w)) = (h', None) ->
        write_seq (cls := Columns fields) ds w
        = (Return tt,
           set_buffer (empty_columns fields)
             (sent h' (set_buffer (extend ds (empty_columns fields)) w)))
        /\ fst (_buf_size (snd (write_seq (cls := Columns fields) ds w)))
           = Return 0%nat).
Proof.
  intros Hf Hb Hcap Hlen Hds Hpop.
  pose proof (empty_columns_nonempty (Value := Value) fields Hf) as Hne.
  pose proof (wf_empty_columns (Value := Value) fields) as Hwf.
  pose proof (buf_len_empty_columns (Value := Value) fields) as H0.
  rewrite <- Hb in *.
  assert (Hsize : forall l, Forall (fun d => populated (_buffer (self w)) d = true) l ->
                  buf_len (extend l (_buffer (self w))) = length l).
  { intros l Hl. rewrite (buf_len_extend l _ Hne Hl), H0. reflexivity. }
  assert (Hprefix : forall n, (n < length ds)%nat ->
            write_seq (cls := Columns fields) (firstn n ds) w
            = (Return tt, set_buffer (extend (firstn n ds) (_buffer (self w))) w)).
  { intros n Hn. apply write_seq_below; auto using Forall_firstn.
    rewrite Hsize by auto using Forall_firstn.
    rewrite length_firstn. lia. }
  split; [exact Hprefix|].
  destruct (exists_last (l := ds)) as [ds' [d Heq]].
  { intros ->. simpl in Hlen. lia. }
  assert (Hfill : write_seq (cls := Columns fields) ds w
                  = flush (cls := Columns fields)
                      (set_buffer (extend ds (_buffer (self w))) w)).
  { subst ds. apply Forall_app in Hds. destruct Hds as [Hds' Hd].
    apply Forall_app in Hpop. destruct Hpop as [Hpop' Hpopd].
    inversion Hd; subst.
    apply write_seq_fill; auto.
    - rewrite (Hsize ds' Hpop'). rewrite length_app in Hlen. simpl in Hlen. lia.
    - rewrite Hsize by (apply Forall_app; split; assumption).
      unfold Data in *. lia. }
  assert (Hpos : (0 < buf_len (_buffer (self (set_buffer (extend ds (_buffer (self w))) w))))%nat).
  { simpl. rewrite (Hsize ds Hpop). lia. }
  rewrite Hfill. split.
  - rewrite (flush_calls _ Hpos (reset_columns_calls fields)). reflexivity.
  - intros h' Hs. rewrite (flush_ok _ h' Hpos Hs). simpl.
    rewrite Hb. split; [reflexivity|].
    rewrite _buf_size_spec. simpl. now rewrite buf_len_empty_columns.
Qed.

Lemma buf_len_extend_first d b k rest :
  keys b = k :: rest -> contains k d = true ->
  (0 < buf_len (extend [d] b))%nat.
Proof.
  intros Hk Hc. destruct b as [|[k' c] r]; [discriminate|].
  simpl in *. inversion Hk; subst. rewrite length_app. unfold cell.
  destruct (getitem_contains k d Hc) as [v ->]. simpl. lia.
Qed.

Lemma extend_without k d b :
  contains k b = false -> extend [d] b = extend [without k d] b.
Proof.
  intros Hk. rewrite !extend_one. apply map_ext_in. intros [k' c] Hin. simpl.
  f_equal. f_equal. unfold cell, without.
  rewrite getitem_filter_other; [reflexivity|].
  intros ->. apply contains_false_In in Hk. apply Hk.
  change k with (fst (k, c)). now apply in_map.
Qed.

(** C3, as the code has it.  When the sink raises in a [flush], called
    directly or by [write], the caller gets the sink's exception as it
    is, and the buffer keeps all the records it had when [flush] was
    entered (for a [flush] made by [write], the record just written
    included): [_reset_buffer] is not reached.  The next [write] adds its
    record to them; it flushes them all again if [_buf_size] has then
    reached the capacity, and returns without a call of the sink if
    not. *)
Theorem sink_failure_retains_buffer {cls : Resetter} w h' e :
  wf (_buffer (self w)) ->
  (0 < buf_len (_buffer (self w)))%nat ->
  handler_write (_handler (self w)) (_buffer (self w)) (_table (self w))
    = (h', Some e) ->
  flush w = (Raise unit (SinkError e), sent h' w)
  /\ _buffer (self (snd (flush w))) = _buffer (self w)
  /\ (forall d w0,
        wf d -> wf (_buffer (self w0)) ->
        set_buffer (extend [d] (_buffer (self w0))) w0 = w ->
        _buf_capacity (self w0) <= Z.of_nat (buf_len (_buffer (self w))) ->
        write d w0 = (Raise unit (SinkError e), sent h' w)
        /\ _buffer (self (snd (write d w0))) = extend [d] (_buffer (self w0)))
  /\ (forall d2,
        wf d2 ->
        write d2 (snd (flush w))
        = if Z.of_nat (buf_len (extend [d2] (_buffer (self w))))
             >=? _buf_capacity (self w)
          then flush (set_buffer (extend [d2] (_buffer (self w))) (snd (flush w)))
          else (Return tt,
                set_buffer (extend [d2] (_buffer (self w))) (snd (flush w)))).
Proof.
  intros Hw Hpos Hs.
  assert (Hflush : flush w = (Raise unit (SinkError e), sent h' w))
    by now apply flush_raise.
  rewrite Hflush. cbn [snd]. split; [reflexivity|]. split; [reflexivity|]. split.
  - intros d w0 Hd Hw0 Heq Hcap.
    rewrite (write_spec d w0 Hd Hw0), Heq.
    assert (Hb : _buffer (self w) = extend [d] (_buffer (self w0)))
      by (rewrite <- Heq; reflexivity).
    rewrite <- Hb. case_geb; [|lia]. rewrite Hflush. now split.
  - intros d2 Hd2. rewrite (write_spec d2 (sent h' w) Hd2 Hw). reflexivity.
Qed.

(** C5.  A key of the record that the buffer does not have changes
    nothing, and the rest of the record is written all the same.
    [_append_buffer] returns, the buffer keeps its keys, and each column
    whose key the record has gets the record's value.  [write] goes on
    from that buffer: below the capacity it returns with it, at the
    capacity it flushes it, and it does, returns and raises just what it
    would without the entry of that key.  For a derived class, the sink
    then gets that buffer, the key is not in the buffer after [write]
    either, and [write] raises nothing but what the sink raised. *)
Theorem write_drops_unrecognized_key {cls : Resetter} d w (k : string) :
  wf d -> wf (_buffer (self w)) ->
  contains k d = true -> contains k (_buffer (self w)) = false ->
  _append_buffer d w = (Return tt, set_buffer (extend [d] (_buffer (self w))) w)
  /\ keys (extend [d] (_buffer (self w))) = keys (_buffer (self w))
  /\ contains k (_buffer (self (snd (_append_buffer d w)))) = false
  /\ (forall k' col v,
        getitem k' (_buffer (self w)) = Some col -> getitem k' d = Some v ->
        getitem k' (_buffer (self (snd (_append_buffer d w))))
        = Some (col ++ [v])%list
        /\ getitem k' (extend [d] (_buffer (self w))) = Some (col ++ [v])%list)
  /\ write d w
     = (if Z.of_nat (buf_len (extend [d] (_buffer (self w))))
           >=? _buf_capacity (self w)
        then flush (set_buffer (extend [d] (_buffer (self w))) w)
        else (Return tt, set_buffer (extend [d] (_buffer (self w))) w))
  /\ write d w = write (without k d) w
  /\ (forall fields,
        keys (_buffer (self w)) = keys (@empty_columns Value fields) ->
        contains k (_buffer (self (snd (write (cls := Columns fields) d w)))) = false
        /\ (fst (write (cls := Columns fields) d w) = Return tt
            \/ exists e, fst (write (cls := Columns fields) d w)
                         = Raise unit (SinkError e))
        /\ (Z.of_nat (buf_len (extend [d] (_buffer (self w))))
              < _buf_capacity (self w) ->
            write (cls := Columns fields) d w
            = (Return tt, set_buffer (extend [d] (_buffer (self w))) w))
        /\ (_buf_capacity (self w)
              <= Z.of_nat (buf_len (extend [d] (_buffer (self w)))) ->
            (0 < buf_len (extend [d] (_buffer (self w))))%nat ->
            sink_calls (snd (write (cls := Columns fields) d w))
            = (sink_calls w
               ++ [(extend [d] (_buffer (self w)), _table (self w))])%list)).
Proof.
  intros Hd Hw Hkd Hkb.
  rewrite (_append_buffer_spec d w Hd Hw). simpl.
  split; [reflexivity|]. split; [apply keys_extend|].
  split; [unfold contains in *; now rewrite keys_extend|].
  split.
  { intros k' col v Hcol Hv. rewrite getitem_extend, Hcol.
    unfold column, cell. simpl. now rewrite Hv. }
  split; [apply (write_spec d w Hd Hw)|].
  split.
  { rewrite (write_spec d w Hd Hw).
    rewrite (write_spec (without k d) w (keys_filter_NoDup k d Hd) Hw).
    now rewrite <- (extend_without k d (_buffer (self w)) Hkb). }
  intros fields Hkeys. rewrite (write_spec d w Hd Hw).
  assert (Hnot : contains k (@empty_columns Value fields) = false).
  { unfold contains in *. now rewrite <- Hkeys. }
  assert (Hext : contains k (extend [d] (_buffer (self w))) = false).
  { unfold contains in *. now rewrite keys_extend. }
  case_geb.
  - assert (Hcases :
      contains k (_buffer (self (snd (flush (cls := Columns fields)
                    (set_buffer (extend [d] (_buffer (self w))) w))))) = false
      /\ (fst (flush (cls := Columns fields)
                 (set_buffer (extend [d] (_buffer (self w))) w)) = Return tt
          \/ exists e, fst (flush (cls := Columns fields)
                              (set_buffer (extend [d] (_buffer (self w))) w))
                       = Raise unit (SinkError e))).
    { rewrite flush_spec. simpl.
      destruct (0 <? Z.of_nat (buf_len (extend [d] (_buffer (self w)))));
        [|split; [exact Hext | now left]].
      unfold bind, call_handler_write. simpl.
      destruct (handler_write _ _ _) as [h1 [e|]]; simpl.
      - split; [exact Hext | right; now exists e].
      - split; [exact Hnot | now left]. }
    destruct Hcases as [Hc1 Hc2].
    split; [exact Hc1|]. split; [exact Hc2|]. split.
    + intros Hlt. unfold Data in *. lia.
    + intros _ Hpos.
      rewrite flush_calls; [reflexivity | exact Hpos | apply reset_columns_calls].
  - split; [exact Hext|]. split; [now left|]. split; [reflexivity|].
    intros Hge. unfold Data in *. lia.
Qed.

(** C10, as the code has it.  With a capacity of zero or less, a [write]
    whose record has the first key of the buffer, the one [_buf_size]
    measures, calls the sink, once, with the buffer and that record in
    it; when the sink returns, so does [write], and the buffer is empty
    again. *)
Theorem nonpositive_capacity_write_flushes
    (fields : list string) d w (k : string) (rest : list string) :
  _buf_capacity (self w) <= 0 ->
  wf d -> wf (_buffer (self w)) ->
  keys (_buffer (self w)) = k :: rest -> contains k d = true ->
  sink_calls (snd (write (cls := Columns fields) d w))
  = (sink_calls w ++ [(extend [d] (_buffer (self w)), _table (self w))])%list
  /\ (forall h',
        handler_write (_handler (self w)) (extend [d] (_buffer (self w)))
                      (_table (self w)) = (h', None) ->
        write (cls := Columns fields) d w
        = (Return tt,
           set_buffer (empty_columns fields)
             (sent h' (set_buffer (extend [d] (_buffer (self w))) w)))
        /\ fst (_buf_size (snd (write (cls := Columns fields) d w)))
           = Return 0%nat).
Proof.
  intros Hcap Hd Hw Hk Hkd.
  pose proof (buf_len_extend_first d (_buffer (self w)) k rest Hk Hkd) as Hpos.
  rewrite (write_spec d w Hd Hw). case_geb; [|lia].
  split.
  - rewrite flush_calls; [reflexivity | exact Hpos | apply reset_columns_calls].
  - intros h' Hs. rewrite (flush_ok _ h'); [|exact Hpos | exact Hs]. simpl.
    split; [reflexivity|].
    rewrite _buf_size_spec. simpl. now rewrite buf_len_empty_columns.
Qed.
End Claims.

(* ================================================================== *)
(** ** The theorems at work on the fixture, and where the writer does
       otherwise than one might expect *)
(* ================================================================== *)

Section Runs.
Import Fixture.
Local Open Scope string_scope.

(** Each record of a list is a well-formed dictionary. *)
Ltac each_wf :=
  repeat (apply Forall_cons; [apply wfb_wf; reflexivity|]); apply Forall_nil.

Lemma write_capacity_records_flushes_once_witness :
  sink_calls (snd (write_seq (cls := Columns t_v) [rec 1 10; rec 2 20; rec 3 30]
                             (writer t_v 5 3)))
  = [([("t", [1; 2; 3]); ("v", [10; 20; 30])], "readings")].
Proof.
  refine (proj1 (proj2 (write_capacity_records_flushes_once
                          t_v [rec 1 10; rec 2 20; rec 3 30] (writer t_v 5 3)
                          _ _ _ _ _ _))).
  - discriminate.
  - reflexivity.
  - reflexivity.
  - reflexivity.
  - each_wf.
  - repeat constructor.
Defined.

(** A writer without columns never flushes: after [Capacity] calls of
    [write], here one, the sink has not been called. *)
Lemma no_columns_never_flushes :
  new (cls := Columns []) (5%nat : Handler) "readings" 1 = Return (writer [] 5 1)
  /\ populated (_buffer (self (writer [] 5 1))) (rec 1 10) = true
  /\ write_seq (cls := Columns []) [rec 1 10] (writer [] 5 1)
     = (Return tt, writer [] 5 1)
  /\ sink_calls (snd (write_seq (cls := Columns []) [rec 1 10] (writer [] 5 1)))
     <> [(_buffer (self (writer [] 5 1)), "readings")].
Proof. repeat split. discriminate. Qed.

Lemma write_below_capacity_accumulates_witness :
  write_seq (cls := Columns t_v) [rec 1 10; rec 2 20] (writer t_v 5 3)
  = (Return tt,
     set_buffer [("t", [1; 2]); ("v", [10; 20])] (writer t_v 5 3))
  /\ sink_calls (snd (write_seq (cls := Columns t_v) [rec 1 10; rec 2 20]
                                (writer t_v 5 3))) = []
  /\ _buf_size (snd (write_seq (cls := Columns t_v) [rec 1 10; rec 2 20]
                               (writer t_v 5 3)))
     = (Return 2%nat,
        snd (write_seq (cls := Columns t_v) [rec 1 10; rec 2 20] (writer t_v 5 3))).
Proof.
  refine (write_below_capacity_accumulates (cls := Columns t_v)
            [rec 1 10; rec 2 20] (writer t_v 5 3) _ _ _ _ _ _).
  - discriminate.
  - apply wfb_wf; reflexivity.
  - reflexivity.
  - reflexivity.
  - each_wf.
  - repeat constructor.
Defined.

(** A writer without columns stays at size 0: after one [write], one
    being below the capacity, [_buf_size] is 0 and not 1. *)
Lemma no_columns_size_stays_zero :
  new (cls := Columns []) (5%nat : Handler) "readings" 2 = Return (writer [] 5 2)
  /\ populated (_buffer (self (writer [] 5 2))) (rec 1 10) = true
  /\ Z.of_nat (length [rec 1 10]) < _buf_capacity (self (writer [] 5 2))
  /\ fst (_buf_size (snd (write_seq (cls := Columns []) [rec 1 10] (writer [] 5 2))))
     = Return 0%nat
  /\ fst (_buf_size (snd (write_seq (cls := Columns []) [rec 1 10] (writer [] 5 2))))
     <> Return (length [rec 1 10]).
Proof. repeat split. discriminate. Qed.

Lemma sink_failure_retains_buffer_witness :
  write (cls := Columns t_v) (rec 2 20) (loaded 0 2)
  = (Raise unit (SinkError "connection lost"),
     sent (0%nat : Handler)
          (set_buffer [("t", [1; 2]); ("v", [10; 20])] (loaded 0 2)))
  /\ _buffer (self (snd (write (cls := Columns t_v) (rec 2 20) (loaded 0 2))))
     = [("t", [1; 2]); ("v", [10; 20])].
Proof.
  refine (proj1 (proj2 (proj2
            (sink_failure_retains_buffer (cls := Columns t_v)
               (set_buffer [("t", [1; 2]); ("v", [10; 20])] (loaded 0 2))
               (0%nat : Handler) "connection lost" _ _ _)))
            (rec 2 20) (loaded 0 2) _ _ _ _).
  - apply wfb_wf; reflexivity.
  - simpl. lia.
  - reflexivity.
  - apply wfb_wf; reflexivity.
  - apply wfb_wf; reflexivity.
  - reflexivity.
  - simpl. lia.
Defined.

(** The third [write] of the example of the specification, with a sink
    that raises: the three records are still in the buffer afterwards,
    and a fourth [write] adds its record to them. *)
Lemma sink_failure_buffer_not_discarded :
  write_seq (cls := Columns t_v) [rec 1 10; rec 2 20] (writer t_v 0 3)
  = (Return tt, set_buffer [("t", [1; 2]); ("v", [10; 20])] (writer t_v 0 3))
  /\ fst (write (cls := Columns t_v) (rec 3 30)
            (set_buffer [("t", [1; 2]); ("v", [10; 20])] (writer t_v 0 3)))
     = Raise unit (SinkError "connection lost")
  /\ _buffer (self (snd (write (cls := Columns t_v) (rec 3 30)
                (set_buffer [("t", [1; 2]); ("v", [10; 20])] (writer t_v 0 3)))))
     = [("t", [1; 2; 3]); ("v", [10; 20; 30])]
  /\ _buffer (self (snd (write (cls := Columns t_v) (rec 3 30)
                (set_buffer [("t", [1; 2]); ("v", [10; 20])] (writer t_v 0 3)))))
     <> empty_columns t_v
  /\ _buffer (self (snd (write_seq (cls := Columns t_v)
                [rec 1 10; rec 2 20; rec 3 30] (writer t_v 0 3))))
     = [("t", [1; 2; 3]); ("v", [10; 20; 30])]
  /\ _buffer (self (snd (write (cls := Columns t_v) (rec 4 40)
                (snd (write_seq (cls := Columns t_v)
                        [rec 1 10; rec 2 20; rec 3 30] (writer t_v 0 3))))))
     = [("t", [1; 2; 3; 4]); ("v", [10; 20; 30; 40])].
Proof. repeat split. discriminate. Qed.

Lemma flush_raise_buffer_unchanged_witness :
  flush (cls := Columns t_v) (loaded 0 3)
  = (Raise unit (SinkError "connection lost"), sent (0%nat : Handler) (loaded 0 3))
  /\ _buffer (self (snd (flush (cls := Columns t_v) (loaded 0 3))))
     = [("t", [1]); ("v", [10])]
  /\ _buf_size (snd (flush (cls := Columns t_v) (loaded 0 3)))
     = (Return 1%nat, snd (flush (cls := Columns t_v) (loaded 0 3))).
Proof.
  refine (flush_raise_buffer_unchanged (cls := Columns t_v)
            (loaded 0 3) 1 (0%nat : Handler) "connection lost" _ _ _).
  - reflexivity.
  - lia.
  - reflexivity.
Defined.

Lemma write_drops_unrecognized_key_witness :
  write (cls := Columns t_v) (rec_extra 1 10 7) (writer t_v 5 3)
  = (Return tt, set_buffer [("t", [1]); ("v", [10])] (writer t_v 5 3))
  /\ write (cls := Columns t_v) (rec_extra 1 10 7) (writer t_v 5 3)
     = write (cls := Columns t_v) (rec 1 10) (writer t_v 5 3).
Proof.
  refine ((fun H => conj (proj1 (proj2 (proj2 (proj2 (proj2 H)))))
                         (proj1 (proj2 (proj2 (proj2 (proj2 (proj2 H)))))))
            (write_drops_unrecognized_key (cls := Columns t_v)
               (rec_extra 1 10 7) (writer t_v 5 3) "unit" _ _ _ _)).
  - apply wfb_wf; reflexivity.
  - apply wfb_wf; reflexivity.
  - reflexivity.
  - reflexivity.
Defined.

Lemma flush_empty_is_noop_witness :
  flush (cls := Columns t_v) (writer t_v 5 3) = (Return tt, writer t_v 5 3)
  /\ sink_calls (snd (flush (cls := Columns t_v) (writer t_v 5 3))) = [].
Proof.
  refine (flush_empty_is_noop (cls := Columns t_v) (writer t_v 5 3) _).
  reflexivity.
Defined.

Lemma columns_equal_length_invariant_witness :
  uniform (_buffer (self (run_ops (cls := Columns t_v)
             [OpWrite (rec 1 10); OpAppend (rec 2 20); OpFlush;
              OpWrite (rec 3 30); OpInitialize; OpAppend (rec 4 40)]
             (writer t_v 1 2)))) = true.
Proof.
  refine (columns_equal_length_invariant t_v (1%nat : Handler) "readings" 2
            [OpWrite (rec 1 10); OpAppend (rec 2 20); OpFlush;
             OpWrite (rec 3 30); OpInitialize; OpAppend (rec 4 40)]
            (writer t_v 1 2) _ _).
  - reflexivity.
  - repeat (apply Forall_cons;
            [first [apply Forall_nil
                   | apply Forall_cons;
                     [split; [apply wfb_wf; reflexivity | reflexivity]
                     | apply Forall_nil]]|]).
    apply Forall_nil.
Defined.

Lemma constructor_accepts_nonpositive_capacity_witness :
  new (cls := Columns t_v) (5%nat : Handler) "readings" (-4)
  = Return (writer t_v 5 (-4)).
Proof.
  refine (constructor_accepts_nonpositive_capacity
            t_v (5%nat : Handler) "readings" (-4) _).
  lia.
Defined.

(** With a capacity of 0 the constructor of a derived class hands out a
    writer: it raises nothing. *)
Lemma capacity_zero_constructs :
  0 <= 0
  /\ new (cls := Columns t_v) (5%nat : Handler) "readings" 0
     = Return (writer t_v 5 0)
  /\ forall e, new (cls := Columns t_v) (5%nat : Handler) "readings" 0
               <> Raise World e.
Proof. split; [lia|]. split; [reflexivity | discriminate]. Qed.

Lemma nonpositive_capacity_write_flushes_witness :
  sink_calls (snd (write (cls := Columns t_v) (rec 1 10) (writer t_v 5 0)))
  = [([("t", [1]); ("v", [10])], "readings")].
Proof.
  refine (proj1 (nonpositive_capacity_write_flushes
                   t_v (rec 1 10) (writer t_v 5 0) "t" ["v"] _ _ _ _ _)).
  - simpl. lia.
  - apply wfb_wf; reflexivity.
  - apply wfb_wf; reflexivity.
  - reflexivity.
  - reflexivity.
Defined.

(** With a capacity of 0, records that have the column [v] but not the
    first column [t]: [_buf_size] stays at 0, the sink is not called, and
    after two calls of [write] the buffer holds both records. *)
Lemma nonpositive_capacity_partial_record_stays :
  _buf_capacity (self (writer t_v 5 0)) <= 0
  /\ contains "v" (rec_v 10) = true
  /\ contains "v" (_buffer (self (writer t_v 5 0))) = true
  /\ write (cls := Columns t_v) (rec_v 10) (writer t_v 5 0)
     = (Return tt, set_buffer [("t", []); ("v", [10])] (writer t_v 5 0))
  /\ write_seq (cls := Columns t_v) [rec_v 10; rec_v 20] (writer t_v 5 0)
     = (Return tt, set_buffer [("t", []); ("v", [10; 20])] (writer t_v 5 0))
  /\ sink_calls (snd (write_seq (cls := Columns t_v) [rec_v 10; rec_v 20]
                                (writer t_v 5 0))) = [].
Proof. split; [simpl; lia|]. repeat split. Qed.
End Runs.

(* ================================================================== *)
(** ** More on the writer: what a run of it keeps and never does *)
(* ================================================================== *)

Section WriterRuns.
Context {Value : Type} {sink : Sink Value}.
Implicit Types (w : World) (d : Data Value) (b : Buffer Value).

Lemma keys_setitem_contains {A} (k : string) (v : A) (d : dict A) :
  contains k d = true -> keys (setitem k v d) = keys d.
Proof.
  unfold contains. induction d as [|[k' v'] r IH]; simpl; [discriminate|].
  destruct (String.eqb_spec k k') as [->|Hne]; simpl; [reflexivity|].
  intros H. now rewrite IH.
Qed.

(** One turn of the loop of [_append_buffer] returns, for a key of the
    record, and only assigns to the buffer, keeping its keys. *)
Lemma _append_key_returns d k w :
  In k (keys d) ->
  exists b', _append_key d k w = (Return tt, set_buffer b' w)
             /\ keys b' = keys (_buffer (self w)).
Proof.
  intros Hin. destruct (getitem_contains k d) as [v Hv].
  { now apply contains_In. }
  unfold _append_key, bind, get. simpl.
  destruct (contains k (_buffer (self w))) eqn:Hc.
  - destruct (getitem_contains _ _ Hc) as [col Hcol].
    unfold lookup, ret, modify. rewrite Hcol, Hv.
    exists (setitem k (col ++ [v])%list (_buffer (self w))).
    split; [reflexivity | now apply keys_setitem_contains].
  - exists (_buffer (self w)). unfold ret. now rewrite set_buffer_same.
Qed.

Lemma append_loop_returns d ks :
  (forall k, In k ks -> In k (keys d)) ->
  forall w, exists b',
    for_each ks (_append_key d) w = (Return tt, set_buffer b' w)
    /\ keys b' = keys (_buffer (self w)).
Proof.
  induction ks as [|k ks IH]; intros Hin w; simpl.
  - exists (_buffer (self w)). now rewrite set_buffer_same.
  - assert (Hrest : forall k', In k' ks -> In k' (keys d))
      by (intros; apply Hin; now right).
    destruct (_append_key_returns d k w) as [b1 [H1 Hk1]].
    { apply Hin. now left. }
    destruct (IH Hrest (set_buffer b1 w)) as [b' [Hb' Hk']].
    exists b'. unfold bind. rewrite H1, Hb'. split; [reflexivity|].
    rewrite Hk'. exact Hk1.
Qed.

Lemma _append_buffer_returns d w :
  exists b', _append_buffer d w = (Return tt, set_buffer b' w)
             /\ keys b' = keys (_buffer (self w)).
Proof. apply append_loop_returns. auto. Qed.

Lemma write_unfold {cls : Resetter} d w b' :
  _append_buffer d w = (Return tt, set_buffer b' w) ->
  write d w
  = if Z.of_nat (buf_len b') >=? _buf_capacity (self w)
    then flush (set_buffer b' w)
    else (Return tt, set_buffer b' w).
Proof.
  intros Ha. unfold write. unfold bind at 1. rewrite Ha.
  unfold bind at 1. rewrite _buf_size_spec. unfold bind, get. simpl.
  destruct (Z.of_nat (buf_len b') >=? _buf_capacity (self w)); reflexivity.
Qed.

(** The three ways a [flush] of a derived class ends. *)
Lemma flush_columns_cases fields w :
  (buf_len (_buffer (self w)) = 0%nat
   /\ flush (cls := Columns fields) w = (Return tt, w))
  \/ (exists h' e,
        (0 < buf_len (_buffer (self w)))%nat
        /\ flush (cls := Columns fields) w = (Raise unit (SinkError e), sent h' w))
  \/ (exists h',
        (0 < buf_len (_buffer (self w)))%nat
        /\ flush (cls := Columns fields) w
           = (Return tt, set_buffer (empty_columns fields) (sent h' w))).
Proof.
  destruct (buf_len (_buffer (self w))) as [|n] eqn:Hn.
  - left. split; [reflexivity | now apply flush_empty].
  - right.
    assert (Hpos : (0 < buf_len (_buffer (self w)))%nat) by lia.
    destruct (handler_write (_handler (self w)) (_buffer (self w)) (_table (self w)))
      as [h' [e|]] eqn:Hs.
    + left. exists h', e. split; [lia|]. now apply flush_raise.
    + right. exists h'. split; [lia|]. now rewrite (flush_ok w h' Hpos Hs).
Qed.

Lemma carries_on_refl w : carries_on w w.
Proof.
  repeat split. exists []. split; [now rewrite app_nil_r | constructor].
Qed.

Lemma carries_on_trans w1 w2 w3 :
  carries_on w1 w2 -> carries_on w2 w3 -> carries_on w1 w3.
Proof.
  intros (Hc & Ht & c1 & Hs1 & Hf1) (Hc' & Ht' & c2 & Hs2 & Hf2).
  repeat split; try congruence.
  exists (c1 ++ c2)%list. split.
  - rewrite Hs2, Hs1. now rewrite app_assoc.
  - apply Forall_app. split; [assumption|]. now rewrite <- Ht.
Qed.

Lemma carries_on_set_buffer b w : carries_on w (set_buffer b w).
Proof.
  repeat split. exists []. split; [simpl; now rewrite app_nil_r | constructor].
Qed.

Lemma carries_on_flush fields w :
  carries_on w (snd (flush (cls := Columns fields) w)).
Proof.
  destruct (flush_columns_cases fields w)
    as [[_ ->] | [(h' & e & Hpos & ->) | (h' & Hpos & ->)]]; simpl.
  - apply carries_on_refl.
  - repeat split. exists [(_buffer (self w), _table (self w))].
    split; [reflexivity|]. repeat constructor. assumption.
  - repeat split. exists [(_buffer (self w), _table (self w))].
    split; [reflexivity|]. repeat constructor. assumption.
Qed.

Lemma carries_on_write fields d w :
  carries_on w (snd (write (cls := Columns fields) d w)).
Proof.
  destruct (_append_buffer_returns d w) as [b' [Ha _]].
  rewrite (write_unfold d w b' Ha).
  destruct (Z.of_nat (buf_len b') >=? _buf_capacity (self w)).
  - apply (carries_on_trans w (set_buffer b' w)).
    + apply carries_on_set_buffer.
    + apply carries_on_flush.
  - apply carries_on_set_buffer.
Qed.

(** X1.  Over any sequence of [write], [_append_buffer], [flush] and
    [_reset_buffer] calls, with any records and whether calls raise or
    not: the capacity and the table of the writer stay what they were,
    calls of the sink are only added to those made before, and each
    added one carries a buffer whose first column is not empty, for the
    table of the writer. *)
Theorem run_keeps_settings_and_sends_batches
    (fields : list string) (os : list op) w :
  _buf_capacity (self (run_ops (cls := Columns fields) os w))
  = _buf_capacity (self w)
  /\ _table (self (run_ops (cls := Columns fields) os w)) = _table (self w)
  /\ exists calls,
       sink_calls (run_ops (cls := Columns fields) os w)
       = (sink_calls w ++ calls)%list
       /\ Forall (batch_for (_table (self w))) calls.
Proof.
  change (carries_on w (run_ops (cls := Columns fields) os w)).
  revert w. induction os as [|o os IH]; intros w; simpl.
  - apply carries_on_refl.
  - apply (carries_on_trans w (snd (run_op (cls := Columns fields) o w)));
      [|apply IH].
    destruct o as [d|d| |]; simpl.
    + apply carries_on_write.
    + destruct (_append_buffer_returns d w) as [b' [-> _]].
      apply carries_on_set_buffer.
    + apply carries_on_flush.
    + apply carries_on_set_buffer.
Qed.

(** X2.  After a [flush] that returned there is nothing left to flush: a
    second [flush] returns without calling the sink and changes
    nothing. *)
Theorem flush_after_flush_is_noop (fields : list string) w :
  fst (flush (cls := Columns fields) w) = Return tt ->
  flush (cls := Columns fields) (snd (flush (cls := Columns fields) w))
  = (Return tt, snd (flush (cls := Columns fields) w)).
Proof.
  destruct (flush_columns_cases fields w)
    as [[_ Hf] | [(h' & e & _ & Hf) | (h' & _ & Hf)]]; rewrite Hf; simpl.
  - intros _. exact Hf.
  - discriminate.
  - intros _. apply flush_empty. simpl. apply buf_len_empty_columns.
Qed.

(** X3.  With a positive capacity, whenever [write] returns, [_buf_size]
    is below the capacity afterwards, whatever the buffer held before
    and whatever the record: a full buffer never outlives a [write] that
    returned. *)
Theorem write_returns_below_capacity (fields : list string) d w :
  0 < _buf_capacity (self w) ->
  fst (write (cls := Columns fields) d w) = Return tt ->
  exists n,
    _buf_size (snd (write (cls := Columns fields) d w))
    = (Return n, snd (write (cls := Columns fields) d w))
    /\ Z.of_nat n < _buf_capacity (self (snd (write (cls := Columns fields) d w))).
Proof.
  intros Hcap Hret.
  exists (buf_len (_buffer (self (snd (write (cls := Columns fields) d w))))).
  split; [apply _buf_size_spec|].
  destruct (_append_buffer_returns d w) as [b' [Ha _]].
  rewrite (write_unfold d w b' Ha) in *.
  case_geb; [|simpl; lia].
  destruct (flush_columns_cases fields (set_buffer b' w))
    as [[H0 Hf] | [(h' & e & _ & Hf) | (h' & _ & Hf)]];
    rewrite Hf in *; simpl in *.
  - lia.
  - discriminate.
  - rewrite buf_len_empty_columns. lia.
Qed.

Lemma getitem_Some_In {A} (k : string) (v : A) (d : dict A) :
  getitem k d = Some v -> In (k, v) d.
Proof.
  induction d as [|[k' v'] r IH]; simpl; [discriminate|].
  destruct (String.eqb_spec k k') as [->|]; intros H.
  - left. now inversion H.
  - right. now apply IH.
Qed.

(** X4.  A record that has one key of the buffer and lacks another
    breaks the table: after [_append_buffer] the columns no longer have
    one length (nothing pads the column of the missing key). *)
Theorem partial_record_desynchronizes d w (k1 k2 : string) :
  wf d -> wf (_buffer (self w)) ->
  uniform (_buffer (self w)) = true ->
  contains k1 (_buffer (self w)) = true -> contains k1 d = true ->
  contains k2 (_buffer (self w)) = true -> contains k2 d = false ->
  fst (_append_buffer d w) = Return tt
  /\ uniform (_buffer (self (snd (_append_buffer d w)))) = false.
Proof.
  intros Hd Hw Hu H1b H1d H2b H2d.
  rewrite (_append_buffer_spec d w Hd Hw). simpl. split; [reflexivity|].
  destruct (uniform (extend [d] (_buffer (self w)))) eqn:Hu'; [exfalso|reflexivity].
  unfold uniform in Hu, Hu'. rewrite forallb_forall in Hu, Hu'.
  destruct (getitem_contains _ _ H1b) as [c1 Hc1].
  destruct (getitem_contains _ _ H2b) as [c2 Hc2].
  destruct (getitem_contains _ _ H1d) as [v1 Hv1].
  pose proof (fun k c => getitem_Some_In k c (_buffer (self w))) as Hin.
  pose proof (Hu _ (Hin _ _ Hc1)) as L1. pose proof (Hu _ (Hin _ _ Hc2)) as L2.
  simpl in L1, L2. apply Nat.eqb_eq in L1, L2.
  assert (E1 : In (k1, (c1 ++ cell k1 d)%list) (extend [d] (_buffer (self w)))).
  { rewrite extend_one. apply in_map_iff. exists (k1, c1). split; [reflexivity|].
    now apply Hin. }
  assert (E2 : In (k2, (c2 ++ cell k2 d)%list) (extend [d] (_buffer (self w)))).
  { rewrite extend_one. apply in_map_iff. exists (k2, c2). split; [reflexivity|].
    now apply Hin. }
  apply Hu' in E1. apply Hu' in E2. simpl in E1, E2.
  apply Nat.eqb_eq in E1, E2. rewrite length_app in E1, E2.
  unfold cell in E1, E2. rewrite Hv1 in E1.
  apply contains_false_In, getitem_None in H2d. rewrite H2d in E2.
  simpl in E1, E2. lia.
Qed.

(** X5.  Records without the first key of the buffer never bring a flush
    about: starting with [_buf_size] at 0 and a positive capacity, any
    number of them is written without a call of the sink, and they all
    stay in the buffer, [_buf_size] still at 0. *)
Theorem records_without_first_key_pile_up {cls : Resetter}
    (ds : list (Data Value)) w (k : string) (rest : list string) :
  0 < _buf_capacity (self w) ->
  wf (_buffer (self w)) -> keys (_buffer (self w)) = k :: rest ->
  _buf_size w = (Return 0%nat, w) ->
  Forall wf ds -> Forall (fun d => contains k d = false) ds ->
  write_seq ds w = (Return tt, set_buffer (extend ds (_buffer (self w))) w)
  /\ sink_calls (snd (write_seq ds w)) = sink_calls w
  /\ _buf_size (snd (write_seq ds w)) = (Return 0%nat, snd (write_seq ds w)).
Proof.
  intros Hcap Hw Hk Hsz Hds Hno.
  assert (H0 : buf_len (_buffer (self w)) = 0%nat)
    by (rewrite _buf_size_spec in Hsz; congruence).
  assert (Hcol : column k ds = []).
  { induction Hno as [|d ds Hd _ IH]; simpl; [reflexivity|].
    inversion Hds; subst. rewrite IH by assumption.
    unfold cell. apply contains_false_In, getitem_None in Hd. now rewrite Hd. }
  assert (Hlen : buf_len (extend ds (_buffer (self w))) = 0%nat).
  { destruct (_buffer (self w)) as [|[k' c] r]; [reflexivity|].
    simpl in *. inversion Hk; subst. rewrite Hcol, app_nil_r. congruence. }
  rewrite (write_seq_below ds w Hds Hw) by (rewrite Hlen; simpl; lia).
  cbn [fst snd]. repeat split. rewrite _buf_size_spec.
  unfold set_buffer at 1. cbn [self _buffer]. now rewrite Hlen.
Qed.

Lemma stored_extend (k : string) (ds : list (Data Value)) b :
  contains k b = true ->
  stored k (extend ds b) = (stored k b ++ column k ds)%list.
Proof.
  intros Hk. unfold stored. rewrite getitem_extend.
  destruct (getitem_contains k b Hk) as [col ->]. reflexivity.
Qed.

Lemma stored_empty_columns (k : string) fields :
  stored k (@empty_columns Value fields) = [].
Proof.
  unfold stored. destruct (getitem k (empty_columns fields)) as [col|] eqn:E;
    [|reflexivity].
  apply getitem_Some_In in E.
  pose proof (empty_columns_all_empty (Value := Value) fields) as Hall.
  rewrite Forall_forall in Hall. exact (Hall _ E).
Qed.

Lemma delivered_app (k : string) (c1 c2 : list (Buffer Value * string)) :
  delivered k (c1 ++ c2) = (delivered k c1 ++ delivered k c2)%list.
Proof. unfold delivered. apply flat_map_app. Qed.

(** One [write] that returns: the keys stay those of the class, and what
    the sink got plus what the buffer holds has grown by the record. *)
Lemma write_conserves fields d w (k : string) :
  keys (_buffer (self w)) = keys (@empty_columns Value fields) ->
  In k fields -> wf d ->
  fst (write (cls := Columns fields) d w) = Return tt ->
  keys (_buffer (self (snd (write (cls := Columns fields) d w))))
  = keys (@empty_columns Value fields)
  /\ (delivered k (sink_calls (snd (write (cls := Columns fields) d w)))
      ++ stored k (_buffer (self (snd (write (cls := Columns fields) d w)))))%list
     = (delivered k (sink_calls w) ++ stored k (_buffer (self w)) ++ cell k d)%list.
Proof.
  intros Hkeys Hk Hd.
  assert (Hw : wf (_buffer (self w))).
  { unfold wf. rewrite Hkeys. apply wf_empty_columns. }
  assert (Hkb : contains k (_buffer (self w)) = true).
  { apply contains_In. rewrite Hkeys. now apply In_keys_empty_columns. }
  assert (Hst : stored k (extend [d] (_buffer (self w)))
                = (stored k (_buffer (self w)) ++ cell k d)%list).
  { rewrite (stored_extend k [d] _ Hkb). unfold column. simpl.
    now rewrite app_nil_r. }
  rewrite (write_spec d w Hd Hw).
  case_geb.
  - destruct (flush_columns_cases fields (set_buffer (extend [d] (_buffer (self w))) w))
      as [[_ Hf] | [(h' & e & _ & Hf) | (h' & _ & Hf)]]; rewrite Hf; simpl.
    + intros _. split; [now rewrite keys_extend|]. now rewrite Hst.
    + discriminate.
    + intros _. split; [reflexivity|].
      rewrite delivered_app, stored_empty_columns, app_nil_r. simpl.
      rewrite app_nil_r, Hst. now rewrite app_assoc.
  - simpl. intros _. split; [now rewrite keys_extend|]. now rewrite Hst.
Qed.

(** X6.  No record is lost, repeated or reordered: when a sequence of
    [write] calls has returned, then for each field of the class the
    values the sink received, batch after batch, followed by the values
    still in the buffer, are what was there before followed by the values
    of the records written, in the order of the calls. *)
Theorem written_records_are_conserved
    (fields : list string) (ds : list (Data Value)) w (k : string) :
  keys (_buffer (self w)) = keys (@empty_columns Value fields) ->
  In k fields -> Forall wf ds ->
  fst (write_seq (cls := Columns fields) ds w) = Return tt ->
  (delivered k (sink_calls (snd (write_seq (cls := Columns fields) ds w)))
   ++ stored k (_buffer (self (snd (write_seq (cls := Columns fields) ds w)))))%list
  = (delivered k (sink_calls w) ++ stored k (_buffer (self w)) ++ column k ds)%list.
Proof.
  intros Hkeys Hk Hds. revert w Hkeys.
  induction Hds as [|d ds Hd Hds IH]; intros w Hkeys Hret.
  - simpl. now rewrite app_nil_r.
  - unfold write_seq in *. simpl in *. unfold bind in *.
    pose proof (write_conserves fields d w k Hkeys Hk Hd) as Hstep.
    destruct (write (cls := Columns fields) d w) as [[[]|e] w1] eqn:Hw1;
      [|discriminate].
    destruct (Hstep eq_refl) as [Hkeys1 Heq1]. simpl in Hkeys1, Heq1.
    rewrite (IH w1 Hkeys1 Hret), app_assoc, Heq1.
    now rewrite <- !app_assoc.
Qed.

(** The count of flushes: from a first column of [m] values, [m] below
    the capacity [c], fully populated records bring a flush each time the
    column reaches [c]. *)
Lemma write_seq_counts fields (c : nat) :
  fields <> [] ->
  forall (ds : list (Data Value)) w,
  keys (_buffer (self w)) = keys (@empty_columns Value fields) ->
  _buf_capacity (self w) = Z.of_nat c ->
  (buf_len (_buffer (self w)) < c)%nat ->
  Forall wf ds ->
  Forall (fun d => populated (empty_columns fields) d = true) ds ->
  fst (write_seq (cls := Columns fields) ds w) = Return tt ->
  exists calls,
    sink_calls (snd (write_seq (cls := Columns fields) ds w))
    = (sink_calls w ++ calls)%list
    /\ length calls = ((buf_len (_buffer (self w)) + length ds) / c)%nat
    /\ Forall (fun call => buf_len (fst call) = c) calls
    /\ buf_len (_buffer (self (snd (write_seq (cls := Columns fields) ds w))))
       = ((buf_len (_buffer (self w)) + length ds) mod c)%nat.
Proof.
  intros Hf ds. induction ds as [|d ds IH]; intros w Hkeys Hcap Hlt Hds Hpop Hret.
  - exists []. simpl. rewrite app_nil_r, Nat.add_0_r.
    rewrite Nat.div_small, Nat.mod_small by assumption. repeat split. constructor.
  - inversion Hds as [|? ? Hd Hds']; subst.
    inversion Hpop as [|? ? Hp Hpop']; subst.
    assert (Hw : wf (_buffer (self w))).
    { unfold wf. rewrite Hkeys. apply wf_empty_columns. }
    assert (Hne : _buffer (self w) <> []).
    { intros E. rewrite E in Hkeys. simpl in Hkeys.
      apply (empty_columns_nonempty (Value := Value) fields Hf).
      destruct (empty_columns fields); [reflexivity | discriminate]. }
    assert (Hlen1 : buf_len (extend [d] (_buffer (self w)))
                    = S (buf_len (_buffer (self w)))).
    { rewrite (buf_len_extend [d] _ Hne); [simpl; lia|].
      constructor; [|constructor].
      now rewrite (populated_keys _ (empty_columns fields)). }
    unfold write_seq in *. simpl in Hret |- *. unfold bind in Hret |- *.
    rewrite (write_spec d w Hd Hw) in Hret |- *.
    replace (buf_len (_buffer (self w)) + S (length ds))%nat
      with (S (buf_len (_buffer (self w))) + length ds)%nat by lia.
    case_geb.
    + assert (Hc : S (buf_len (_buffer (self w))) = c) by lia.
      destruct (flush_columns_cases fields (set_buffer (extend [d] (_buffer (self w))) w))
        as [[H0 _] | [(h' & e & _ & Hfl) | (h' & _ & Hfl)]].
      * simpl in H0. lia.
      * rewrite Hfl in Hret. discriminate.
      * rewrite Hfl in Hret |- *.
        destruct (IH (set_buffer (empty_columns fields)
                        (sent h' (set_buffer (extend [d] (_buffer (self w))) w))))
          as (calls & Hcalls & Hn & Hall & Hm); auto.
        { simpl. rewrite buf_len_empty_columns. lia. }
        exists ((extend [d] (_buffer (self w)), _table (self w)) :: calls).
        simpl in Hcalls, Hn, Hm. rewrite buf_len_empty_columns in Hn, Hm.
        simpl in Hn, Hm. repeat split.
        -- rewrite Hcalls. now rewrite <- app_assoc.
        -- cbn [length]. rewrite Hn, Hc.
           replace (c + length ds)%nat with (1 * c + length ds)%nat by lia.
           rewrite Nat.div_add_l by lia. reflexivity.
        -- constructor; [simpl; lia | assumption].
        -- rewrite Hm, Hc.
           replace (c + length ds)%nat with (length ds + 1 * c)%nat by lia.
           now rewrite Nat.Div0.mod_add.
    + destruct (IH (set_buffer (extend [d] (_buffer (self w))) w))
        as (calls & Hcalls & Hn & Hall & Hm); auto.
      { simpl. now rewrite keys_extend. }
      { simpl. lia. }
      exists calls. simpl in Hcalls, Hn, Hm. rewrite Hlen1 in Hn, Hm.
      repeat split; assumption.
Qed.

(** X7.  Starting with an empty buffer, a writer with at least one field
    and capacity [c > 0], fed [n] fully populated records by [write]
    calls that all return, has called its sink [n / c] times, each time
    with exactly [c] records, and holds the remaining [n mod c]
    records. *)
Theorem writes_flush_every_capacity
    (fields : list string) (ds : list (Data Value)) w :
  fields <> [] ->
  _buffer (self w) = empty_columns fields ->
  0 < _buf_capacity (self w) ->
  Forall wf ds ->
  Forall (fun d => populated (empty_columns fields) d = true) ds ->
  fst (write_seq (cls := Columns fields) ds w) = Return tt ->
  exists calls,
    sink_calls (snd (write_seq (cls := Columns fields) ds w))
    = (sink_calls w ++ calls)%list
    /\ length calls = (length ds / Z.to_nat (_buf_capacity (self w)))%nat
    /\ Forall (fun call => buf_len (fst call) = Z.to_nat (_buf_capacity (self w))) calls
    /\ fst (_buf_size (snd (write_seq (cls := Columns fields) ds w)))
       = Return (length ds mod Z.to_nat (_buf_capacity (self w)))%nat.
Proof.
  intros Hf Hb Hcap Hds Hpop Hret.
  destruct (write_seq_counts fields (Z.to_nat (_buf_capacity (self w))) Hf ds w)
    as (calls & Hcalls & Hn & Hall & Hm); auto.
  - now rewrite Hb.
  - lia.
  - rewrite Hb, buf_len_empty_columns. lia.
  - rewrite Hb, buf_len_empty_columns in Hn, Hm. simpl in Hn, Hm.
    exists calls. repeat split; try assumption.
    rewrite _buf_size_spec. simpl. now rewrite Hm.
Qed.
End WriterRuns.

(* ================================================================== *)
(** ** Handler: what [hdf5_to_dict], [local_load] and [local_dump] do *)
(* ================================================================== *)

Section FilesFacts.
Import Py Files.
Local Open Scope string_scope.
Context {E V A : Type}.

Lemma getitem_setitem_other {B} (k k' : string) (v : B) (d : dict B) :
  k <> k' -> getitem k (setitem k' v d) = getitem k d.
Proof.
  intros Hne. induction d as [|[k2 v2] r IH]; simpl.
  - destruct (String.eqb_spec k k'); [contradiction | reflexivity].
  - destruct (String.eqb_spec k' k2) as [->|Hk]; simpl.
    + destruct (String.eqb_spec k k2); [contradiction | reflexivity].
    + destruct (String.eqb_spec k k2); [reflexivity | apply IH].
Qed.

(** Induction on the objects of a file, through the members of groups. *)
Lemma h5obj_induction (P : h5obj E V -> Prop) :
  (forall content, P (Dataset content)) ->
  (forall members, Forall (fun m => P (snd m)) members -> P (Group members)) ->
  P Other ->
  (forall e, P (Unresolved e)) ->
  forall obj, P obj.
Proof.
  intros HD HG HO HU. fix IH 1. intros [content|members| |e].
  - apply HD.
  - apply HG. induction members as [|[name o] rest IHrest]; constructor.
    + apply IH.
    + exact IHrest.
  - exact HO.
  - apply HU.
Qed.

Lemma parse_group (members : list (string * h5obj E V)) (parent_key : string)
    (dd : dict (entry V A)) :
  parse_hdf5_obj (Group members) parent_key dd
  = parse_members members parent_key dd.
Proof.
  revert dd. induction members as [|[name o] rest IH]; intros dd; [reflexivity|].
  cbn [parse_members fst snd and_then]. cbn [parse_hdf5_obj].
  destruct (parse_hdf5_obj o (parent_key ++ "/" ++ name) dd) as [dd'|e];
    [|reflexivity].
  cbn [and_then]. rewrite <- IH. reflexivity.
Qed.

Lemma prefix_slash (rest : string) : String.prefix "/" ("/" ++ rest) = true.
Proof. cbn. now destruct rest. Qed.

Lemma rooted_member (parent name : string) :
  rooted parent -> rooted (parent ++ "/" ++ name).
Proof.
  intros [-> | Hp]; right; [apply prefix_slash|].
  destruct parent as [|a p]; [discriminate|].
  change (String.prefix "/" (String a p))
    with (if Ascii.ascii_dec "/"%char a then String.prefix "" p else false) in Hp.
  destruct (Ascii.ascii_dec "/"%char a) as [<-|]; [|discriminate].
  apply (prefix_slash (p ++ "/" ++ name)).
Qed.

Lemma rooted_not_attrs (k : string) : rooted k -> k <> "attrs".
Proof. intros [-> | Hp] E0; [discriminate | subst; discriminate]. Qed.

(** When [parse_hdf5_obj] returns it has only added keys, all of them
    rooted, and kept what is stored under every other key. *)
Lemma parse_keeps (obj : h5obj E V) :
  forall (parent_key : string) (dd dd' : dict (entry V A)),
  rooted parent_key ->
  parse_hdf5_obj obj parent_key dd = Return dd' ->
  (forall k, In k (keys dd) -> In k (keys dd'))
  /\ (forall k, In k (keys dd') -> In k (keys dd) \/ rooted k)
  /\ (forall k, ~ rooted k -> getitem k dd' = getitem k dd).
Proof.
  induction obj as [content|members IH| |e] using h5obj_induction;
    intros parent_key dd dd' Hp Hrun.
  - cbn [parse_hdf5_obj] in Hrun. destruct content as [e|c]; [discriminate|].
    inversion Hrun; subst. repeat split.
    + intros k Hk. apply In_keys_setitem. now right.
    + intros k Hk. apply In_keys_setitem in Hk. destruct Hk as [->|Hk]; auto.
    + intros k Hk. apply getitem_setitem_other. intros ->. contradiction.
  - rewrite parse_group in Hrun. revert dd Hrun.
    induction IH as [|[name o] rest Ho _ IHrest]; intros dd Hrun;
      cbn [parse_members fst snd] in Hrun.
    + inversion Hrun; subst. repeat split; auto.
    + cbn [snd] in Ho.
      destruct (parse_hdf5_obj o (parent_key ++ "/" ++ name) dd) as [dd1|e] eqn:H1;
        [|discriminate].
      cbn [and_then] in Hrun.
      destruct (Ho (parent_key ++ "/" ++ name) dd dd1 (rooted_member _ _ Hp) H1)
        as (A1 & A2 & A3).
      destruct (IHrest dd1 Hrun) as (R1 & R2 & R3).
      repeat split.
      * intros k Hk. apply R1, A1, Hk.
      * intros k Hk. destruct (R2 k Hk) as [Hk'|]; auto.
      * intros k Hk. rewrite (R3 k Hk). now apply A3.
  - inversion Hrun; subst. repeat split; auto.
  - discriminate.
Qed.

(** What [parse_hdf5_obj] raises is what [h5py] raised. *)
Lemma parse_raises (obj : h5obj E V) :
  forall (parent_key : string) (dd : dict (entry V A)) (err : error E),
  parse_hdf5_obj obj parent_key dd = Raise (dict (entry V A)) err ->
  exists e, err = LibraryError e.
Proof.
  induction obj as [content|members IH| |e] using h5obj_induction;
    intros parent_key dd err Hrun.
  - cbn [parse_hdf5_obj] in Hrun. destruct content as [e|c]; [|discriminate].
    inversion Hrun. now eexists.
  - rewrite parse_group in Hrun. revert dd Hrun.
    induction IH as [|[name o] rest Ho _ IHrest]; intros dd Hrun;
      cbn [parse_members fst snd] in Hrun; [discriminate|].
    cbn [snd] in Ho.
    destruct (parse_hdf5_obj o (parent_key ++ "/" ++ name) dd) as [dd1|e] eqn:H1;
      cbn [and_then] in Hrun.
    + now apply (IHrest dd1).
    + inversion Hrun; subst. now apply (Ho _ _ _ H1).
  - discriminate.
  - inversion Hrun. now eexists.
Qed.

(** X8.  In what [hdf5_to_dict] returns, the entry [attrs] holds the
    attributes of the file whatever the file contains: the key of every
    dataset is empty or begins with a slash, so none takes the place of
    [attrs].  When [hdf5_to_dict] does not return, it raises what [h5py]
    raised. *)
Theorem hdf5_attrs_entry_survives
    (file_attrs : list (string * A)) (file : h5obj E V) :
  match hdf5_to_dict file_attrs file with
  | Return dd =>
      getitem "attrs" dd = Some (Attrs (collect_attrs file_attrs))
      /\ forall k, In k (keys dd) ->
                   k = "attrs" \/ k = "" \/ String.prefix "/" k = true
  | Raise _ err => exists e, err = LibraryError e
  end.
Proof.
  unfold hdf5_to_dict.
  destruct (parse_hdf5_obj file "" [("attrs", Attrs (collect_attrs file_attrs))])
    as [dd|err] eqn:Hrun.
  - destruct (parse_keeps file "" _ dd (or_introl eq_refl) Hrun) as (_ & H2 & H3).
    split.
    + rewrite H3; [reflexivity|]. intros H. now apply (rooted_not_attrs "attrs").
    + intros k Hk. destruct (H2 k Hk) as [[<-|[]] | [->|Hr]]; auto.
  - exact (parse_raises file "" _ err Hrun).
Qed.

Lemma parse_members_reaches (members : list (string * h5obj E V))
    (parent_key name key : string) (o : h5obj E V) :
  rooted parent_key -> In (name, o) members ->
  (forall dd dd1 : dict (entry V A),
     parse_hdf5_obj o (parent_key ++ "/" ++ name) dd = Return dd1 ->
     In key (keys dd1)) ->
  forall dd dd' : dict (entry V A),
    parse_members members parent_key dd = Return dd' -> In key (keys dd').
Proof.
  intros Hp Hin Hkey.
  induction members as [|[name' o'] rest IH]; intros dd dd' Hrun; [contradiction|].
  cbn [parse_members fst snd] in Hrun.
  destruct (parse_hdf5_obj o' (parent_key ++ "/" ++ name') dd) as [dd1|e] eqn:H1;
    [|discriminate].
  cbn [and_then] in Hrun. destruct Hin as [Heq|Hin].
  - inversion Heq; subst.
    rewrite <- parse_group in Hrun.
    apply (parse_keeps (Group rest) parent_key dd1 dd' Hp Hrun).
    now apply (Hkey dd dd1).
  - now apply (IH Hin dd1).
Qed.

Lemma dataset_key_is_made (obj : h5obj E V) (path : list string) (content : V) :
  dataset_at obj path content ->
  forall (parent_key : string) (dd dd' : dict (entry V A)),
  rooted parent_key ->
  parse_hdf5_obj obj parent_key dd = Return dd' ->
  In (fold_left (fun k name => k ++ "/" ++ name) path parent_key) (keys dd').
Proof.
  induction 1 as [content|members name o path content Hin Hat IH];
    intros parent_key dd dd' Hp Hrun.
  - cbn [parse_hdf5_obj] in Hrun. inversion Hrun; subst.
    simpl. apply In_keys_setitem. now left.
  - rewrite parse_group in Hrun. cbn [fold_left].
    apply (parse_members_reaches members parent_key name _ o Hp Hin) with (dd := dd);
      [|exact Hrun].
    intros dd0 dd1 H1. apply (IH _ dd0 dd1); [now apply rooted_member | exact H1].
Qed.

(** X9.  When [hdf5_to_dict] returns, no dataset is left out: a dataset
    found in the file by going down the groups [g1], ..., [gn] to the
    name [d] has the key [/g1/.../gn/d] in the dictionary returned.  (It
    does not return when a link of the file cannot be resolved or a
    dataset cannot be read.) *)
Theorem hdf5_every_dataset_has_its_key
    (file_attrs : list (string * A)) (file : h5obj E V)
    (dd : dict (entry V A)) (path : list string) (content : V) :
  hdf5_to_dict file_attrs file = Return dd ->
  dataset_at file path content ->
  contains (path_key path) dd = true.
Proof.
  intros Hrun Hat. apply contains_In. unfold hdf5_to_dict, path_key in *.
  apply (dataset_key_is_made file path content Hat "" _ dd (or_introl eq_refl) Hrun).
Qed.
End FilesFacts.

Section LoadDumpFacts.
Import Py Files.
Local Open Scope string_scope.
Context {E D V A : Type}.
Variable splitext : string -> string * string.
Variable json_load yaml_safe_load : string -> E + D.
Variable h5py_File : string -> E + (list (string * A) * h5obj E V).
Variable json_dump yaml_dump : D -> string -> E + unit.

Lemma library_not_unsupported {B C} (r : E + B) (k : B -> C) (path : string) :
  and_then (library r) (fun x => Return (k x)) <> Raise C (unsupported path).
Proof. destruct r as [e|b]; simpl; discriminate. Qed.

Lemma hdf5_not_unsupported (path : string) :
  and_then (library (h5py_File path))
    (fun file =>
       and_then (hdf5_to_dict (fst file) (snd file))
                (fun data => Return (FromHdf5 (D := D) data)))
  <> Raise loaded (unsupported path).
Proof.
  destruct (h5py_File path) as [e|file]; cbn [library and_then]; [discriminate|].
  pose proof (hdf5_attrs_entry_survives (fst file) (snd file)) as H.
  destruct (hdf5_to_dict (fst file) (snd file)) as [dd|err]; cbn [and_then];
    [discriminate|].
  destruct H as [e ->]. discriminate.
Qed.

(** X10.  Every path [local_dump] has a format for, [local_load] has a
    format for: when [local_dump] does not raise its "Unsupported file
    format" error for a path, [local_load] does not raise it for that
    path either. *)
Theorem dump_formats_are_load_formats (configs : D) (path : string) :
  local_dump splitext json_dump yaml_dump configs path
    <> Raise unit (unsupported path) ->
  local_load splitext json_load yaml_safe_load h5py_File path
    <> Raise (loaded (D := D) (V := V) (A := A)) (unsupported path).
Proof.
  unfold local_dump, local_load. intros Hdump.
  destruct (String.eqb (snd (splitext path)) ".json");
    [apply library_not_unsupported|].
  destruct (String.eqb (snd (splitext path)) ".yaml"
            || String.eqb (snd (splitext path)) ".yml");
    [apply library_not_unsupported|].
  now contradiction Hdump.
Qed.

(** X11.  The converse fails for HDF5: a path with the extension [.hd5],
    [.h5] or [.hdf5] is read by [local_load], which hands on what
    [hdf5_to_dict] makes of the file or the error of [h5py], while
    [local_dump] raises "Unsupported file format" for it without writing
    anything. *)
Theorem hdf5_is_loaded_but_not_dumped (configs : D) (path : string) :
  In (snd (splitext path)) [".hd5"; ".h5"; ".hdf5"] ->
  local_load splitext json_load yaml_safe_load h5py_File path
  = match h5py_File path with
    | inr file =>
        match hdf5_to_dict (fst file) (snd file) with
        | Return data => Return (FromHdf5 data)
        | Raise _ err => Raise loaded err
        end
    | inl e => Raise loaded (LibraryError e)
    end
  /\ local_load splitext json_load yaml_safe_load h5py_File path
     <> Raise loaded (unsupported path)
  /\ local_dump splitext json_dump yaml_dump configs path
     = Raise unit (ValueError ("Unsupported file format: " ++ path)).
Proof.
  intros Hext. unfold local_load, local_dump.
  assert (H : snd (splitext path) = ".hd5" \/ snd (splitext path) = ".h5"
              \/ snd (splitext path) = ".hdf5").
  { simpl in Hext. intuition auto. }
  destruct H as [-> | [-> | ->]]; cbn [String.eqb Ascii.eqb Bool.eqb orb];
    (split; [|split; [apply hdf5_not_unsupported | reflexivity]]);
    destruct (h5py_File path) as [e|file]; cbn [library and_then];
    try reflexivity;
    destruct (hdf5_to_dict (fst file) (snd file)); reflexivity.
Qed.
End LoadDumpFacts.

(* ================================================================== *)
(** ** DatabaseHandler: engines, messages and column types *)
(* ================================================================== *)

Section DatabaseFacts.
Import Py Database.
Local Open Scope string_scope.
Context {E : Type}.
Implicit Types (c : dict cfgval) (configs : Configs).

Lemma item_contains {B} (k : string) (d : dict B) :
  contains k d = true -> exists v, item (E := E) k d = Return v.
Proof.
  intros H. destruct (getitem_contains k d H) as [v Hv].
  exists v. unfold item. now rewrite Hv.
Qed.

Lemma item_missing {B} (k : string) (d : dict B) :
  contains k d = false -> item (E := E) k d = Raise B (KeyError k).
Proof.
  intros H. apply contains_false_In, getitem_None in H.
  unfold item. now rewrite H.
Qed.

Lemma item_returns {B} (k : string) (d : dict B) (v : B) :
  item (E := E) k d = Return v -> contains k d = true.
Proof.
  unfold item. destruct (getitem k d) as [x|] eqn:Hg; [|discriminate].
  intros _. destruct (contains k d) eqn:Hc; [reflexivity|].
  apply contains_false_In, getitem_None in Hc. congruence.
Qed.

(** [host] and [port] return for every configuration. *)
Lemma host_returns configs : exists h, host (E := E) configs = Return h.
Proof.
  destruct configs as [c|]; simpl; [|now eexists].
  destruct (contains "host" c) eqn:Hc; [now apply item_contains | now eexists].
Qed.

Lemma port_returns configs : exists p, port (E := E) configs = Return p.
Proof.
  destruct configs as [c|]; simpl; [|now eexists].
  destruct (contains "port" c) eqn:Hc; [now apply item_contains | now eexists].
Qed.

(** The messages depend on the key [database] alone. *)
Lemma place_with_database configs db :
  database (E := E) configs = Return db ->
  exists pl, place (E := E) configs = Return pl.
Proof.
  intros Hdb. unfold place.
  destruct (port_returns configs) as [p Hp].
  destruct (host_returns configs) as [h Hh].
  rewrite Hp. cbn [and_then].
  destruct (is_not_None p); rewrite Hh; cbn [and_then]; rewrite Hdb;
    cbn [and_then]; now eexists.
Qed.

Lemma place_without_database c :
  contains "database" c = false ->
  place (E := E) (Some c) = Raise string (KeyError "database").
Proof.
  intros Hdb. unfold place.
  destruct (port_returns (Some c)) as [p Hp].
  destruct (host_returns (Some c)) as [h Hh].
  rewrite Hp. cbn [and_then].
  destruct (is_not_None p); rewrite Hh; cbn [and_then]; unfold database;
    now rewrite (item_missing "database" c Hdb).
Qed.

(** X12.  Without a [csv_path], the constructor turns down every engine
    but [unspecified], [sqlite], [mysql], [postgresql], [oracle] and
    [mssql]: for any other value under [engine] it raises [ValueError]
    with that value in the message, whatever else the configuration
    holds. *)
Theorem unsupported_engine_raises_ValueError c (v : cfgval) :
  getitem "engine" c = Some v ->
  in_strs v ["unspecified"; "sqlite"; "mysql"; "postgresql"; "oracle"; "mssql"]
    = false ->
  engine_url (E := E) (Some c)
  = Raise string (ValueError ("Unsupported database engine: " ++ fmt v)).
Proof.
  intros He Hno. unfold engine_url, dialect, configs_item, item, in_strs in *.
  rewrite He. simpl in *.
  repeat match type of Hno with
         | (_ || _)%bool = false => apply orb_false_iff in Hno; destruct Hno as [?H Hno]
         end.
  repeat match goal with
         | H : eq_str v _ = false |- _ => rewrite H; clear H; simpl
         end.
  reflexivity.
Qed.

(** X13.  With a [csv_path] the constructor does not look at the engine:
    whatever [engine] says, known or not, the URL is that of the local
    SQLite file.  It needs the key [database] all the same, for the
    message [read_csv] logs: a configuration without it makes the
    constructor raise [KeyError]. *)
Theorem csv_constructor_ignores_engine
    (splitext : string -> string * string) c
    (path : string) (table_name : option string) :
  (contains "database" c = true ->
   exists msg,
     init (E := E) splitext (Some c) (Some path) table_name
     = Return ("sqlite:///local.db", Some msg))
  /\ (contains "database" c = false ->
      init (E := E) splitext (Some c) (Some path) table_name
      = Raise (string * option string) (KeyError "database")).
Proof.
  unfold init, read_csv_message. split; intros Hdb.
  - destruct (item_contains "database" c Hdb) as [db Hitem].
    destruct (place_with_database (Some c) db Hitem) as [pl ->].
    simpl. now eexists.
  - now rewrite (place_without_database c Hdb).
Qed.

(** X14.  A configuration file that names the engine [unspecified] and
    has no [database] gives a handler that constructs, on the local
    SQLite file, and then cannot be used: [read_csv], [exec_sql] and
    [write] all raise [KeyError] when they build their log message,
    before they reach the database. *)
Theorem unspecified_engine_constructs_then_fails c :
  getitem "engine" c = Some (CStr "unspecified") ->
  contains "database" c = false ->
  engine_url (E := E) (Some c) = Return "sqlite:///local.db"
  /\ write_message (E := E) (Some c) = Raise string (KeyError "database")
  /\ exec_sql_message (E := E) (Some c) = Raise string (KeyError "database")
  /\ forall path table,
       read_csv_message (E := E) (Some c) path table
       = Raise string (KeyError "database").
Proof.
  intros He Hdb. split.
  - unfold engine_url, dialect, item. now rewrite He.
  - unfold write_message, exec_sql_message, read_csv_message.
    rewrite (place_without_database c Hdb). repeat split.
Qed.

(** X15.  Any other handler the constructor has built (without
    [csv_path]) can build its log messages: if [engine_url] returned and
    the configuration file, if there is one, does not name the engine
    [unspecified], then [write], [exec_sql] and [read_csv] get past their
    log message without an error. *)
Theorem constructed_handler_can_log configs (url : string) :
  engine_url (E := E) configs = Return url ->
  (forall c, configs = Some c -> getitem "engine" c <> Some (CStr "unspecified")) ->
  (exists msg, write_message (E := E) configs = Return msg)
  /\ (exists msg, exec_sql_message (E := E) configs = Return msg)
  /\ forall path table,
       exists msg, read_csv_message (E := E) configs path table = Return msg.
Proof.
  intros Hurl Hno.
  assert (Hdb : exists db, database (E := E) configs = Return db).
  { destruct configs as [c|]; [|simpl; now eexists].
    specialize (Hno c eq_refl).
    unfold engine_url, dialect, configs_item, database in *.
    destruct (item (E := E) "engine" c) as [v|e] eqn:Hv; [|discriminate].
    cbn [and_then] in Hurl.
    destruct (eq_str v "unspecified") eqn:Hu.
    { exfalso. apply Hno. unfold item in Hv.
      destruct (getitem "engine" c) as [x|]; [|discriminate].
      inversion Hv; subst. destruct v as [|s|]; try discriminate.
      simpl in Hu. apply String.eqb_eq in Hu. now subst. }
    destruct (item (E := E) "database" c) as [db|e]; [now eexists|].
    exfalso.
    destruct (eq_str v "sqlite"); [discriminate|].
    destruct (in_strs v ["mysql"; "postgresql"; "oracle"; "mssql"]);
      [|discriminate].
    destruct (port (E := E) (Some c)) as [p|e']; [|discriminate].
    cbn [and_then] in Hurl.
    destruct (item (E := E) "connector" c) as [cn|e'];
      [|destruct (is_not_None p); discriminate].
    destruct (item (E := E) "user" c) as [u|e'];
      [|destruct (is_not_None p); discriminate].
    destruct (item (E := E) "password" c) as [pw|e'];
      [|destruct (is_not_None p); discriminate].
    destruct (host (E := E) (Some c)) as [h|e'];
      destruct (is_not_None p); discriminate. }
  destruct Hdb as [db Hdb].
  destruct (place_with_database configs db Hdb) as [pl Hpl].
  unfold write_message, exec_sql_message, read_csv_message. rewrite Hpl. simpl.
  repeat split; intros; now eexists.
Qed.
End DatabaseFacts.

Section TypeDictFacts.
Import Py Database.
Local Open Scope string_scope.
Context {E V : Type}.
Variable is_datetime : V -> bool.
Implicit Types (configs : Configs) (data : dict (list V)).







(** Where an [IndexError] of the loop comes from: an empty column. *)
Lemma type_dict_loop_IndexError configs data :
  Forall (fun kc => snd kc <> []) data ->
  forall (ks : list string) (td : dict sqltype),
  type_dict_loop (E := E) is_datetime configs data ks td
  <> Raise (dict sqltype) (IndexError (E := E)).
Proof.
  intros Hne. induction ks as [|key ks IH]; intros td; [discriminate|].
  cbn [type_dict_loop]. unfold item.
  destruct (getitem key data) as [col|] eqn:Hcol; [|discriminate].
  cbn [and_then].
  pose proof (getitem_Some_In key col data Hcol) as Hin.
  rewrite Forall_forall in Hne. specialize (Hne _ Hin). simpl in Hne.
  destruct col as [|v rest]; [contradiction|]. cbn [first and_then].
  destruct (is_datetime v); [|apply IH].
  unfold timestamp_type, dialect.
  destruct configs as [c|]; cbn [and_then].
  - unfold item. destruct (getitem "engine" c) as [e|]; [|discriminate].
    cbn [and_then].
    repeat match goal with
           | |- context [if ?b then _ else _] => destruct b; cbn [and_then]
           end; apply IH.
  - simpl. apply IH.
Qed.
End TypeDictFacts.

(* ================================================================== *)
(** ** A DataWriter that writes to a DatabaseHandler *)
(* ================================================================== *)

Section WriterOnDatabase.
Import Py.
Local Open Scope string_scope.
Context {E V S : Type}.
Variable is_datetime : V -> bool.
Variable DataFrame : dict (list V) -> option E.
Variable to_sql : S -> dict (list V) -> string -> dict Database.sqltype -> S * option E.

Lemma write_message_not_IndexError (configs : Configs) :
  Database.write_message (E := E) configs <> Raise string IndexError.
Proof.
  unfold Database.write_message, Database.place, Database.port, Database.host, Database.database, item.
  destruct configs as [c|]; [|discriminate].
  destruct (contains "port" c); destruct (contains "host" c);
    destruct (getitem "port" c) as [[]|]; destruct (getitem "host" c);
    destruct (getitem "database" c); discriminate.
Qed.

Lemma database_write_not_IndexError (h : Configs * S) (data : dict (list V))
    (table : string) :
  Forall (fun kc => snd kc <> []) data ->
  snd (Database.write is_datetime DataFrame to_sql h data table)
  <> Some (IndexError (E := E)).
Proof.
  intros Hne. unfold Database.write.
  pose proof (write_message_not_IndexError (fst h)) as Hmsg.
  destruct (Database.write_message (fst h)) as [msg|e]; [|simpl; congruence].
  destruct (DataFrame data); [discriminate|].
  pose proof (type_dict_loop_IndexError (E := E) is_datetime (fst h) data Hne (keys data) [])
    as Htd.
  unfold Database.type_dict.
  destruct (Database.type_dict_loop (E := E) is_datetime (fst h) data (keys data) []) as [td|e];
    [|simpl; congruence].
  destruct (to_sql (snd h) data table td) as [s' [e|]]; discriminate.
Qed.

Lemma uniform_columns_nonempty (b : Buffer V) :
  uniform b = true -> (0 < buf_len b)%nat ->
  Forall (fun kc => snd kc <> []) b.
Proof.
  unfold uniform. rewrite forallb_forall. intros Hu Hpos.
  apply Forall_forall. intros kc Hin Hnil.
  specialize (Hu kc Hin). apply Nat.eqb_eq in Hu. rewrite Hnil in Hu.
  simpl in Hu. lia.
Qed.

Lemma flush_not_IndexError (fields : list string) (w : World (sink := Database.database_sink (E := E) is_datetime DataFrame to_sql)) :
  uniform (_buffer (self w)) = true ->
  fst (flush (sink := Database.database_sink (E := E) is_datetime DataFrame to_sql) (cls := Columns fields) w)
  <> Raise unit (SinkError (sink := Database.database_sink (E := E) is_datetime DataFrame to_sql) IndexError).
Proof.
  intros Hu. rewrite flush_spec.
  destruct (Z.ltb_spec 0 (Z.of_nat (buf_len (_buffer (self w))))) as [Hpos|];
    [|discriminate].
  assert (Hne : Forall (fun kc => snd kc <> []) (_buffer (self w)))
    by (apply uniform_columns_nonempty; [assumption | lia]).
  pose proof (database_write_not_IndexError (_handler (self w)) (_buffer (self w))
                (_table (self w)) Hne) as Hw.
  unfold bind, call_handler_write. cbn [handler_write Database.database_sink] in *.
  destruct (Database.write is_datetime DataFrame to_sql (_handler (self w))
              (_buffer (self w)) (_table (self w))) as [h' [e|]]; simpl in *.
  - intros Heq. inversion Heq. congruence.
  - discriminate.
Qed.

(** X17.  A writer that keeps its contract never makes its
    [DatabaseHandler] fail on an empty column: with all columns of one
    length, as fully populated records leave them, neither [flush] nor a
    [write] of a fully populated record raises the [IndexError] of
    [data[key][0]] in [DatabaseHandler.write]. *)
Theorem populated_writes_never_IndexError
    (fields : list string) (d : Data V) (w : World (sink := Database.database_sink (E := E) is_datetime DataFrame to_sql)) :
  tabular fields w -> wf d -> populated (empty_columns fields) d = true ->
  fst (flush (sink := Database.database_sink (E := E) is_datetime DataFrame to_sql) (cls := Columns fields) w)
    <> Raise unit (SinkError (sink := Database.database_sink (E := E) is_datetime DataFrame to_sql) IndexError)
  /\ fst (write (sink := Database.database_sink (E := E) is_datetime DataFrame to_sql) (cls := Columns fields) d w)
     <> Raise unit (SinkError (sink := Database.database_sink (E := E) is_datetime DataFrame to_sql) IndexError).
Proof.
  intros Hw Hd Hp. split.
  - apply flush_not_IndexError. apply Hw.
  - pose proof (tabular_append fields d w Hd Hp Hw) as Ha.
    rewrite (_append_buffer_spec d w Hd (tabular_wf fields w Hw)) in Ha.
    rewrite (write_spec d w Hd (tabular_wf fields w Hw)).
    case_geb; [|discriminate].
    apply flush_not_IndexError. apply Ha.
Qed.
End WriterOnDatabase.

(* ================================================================== *)
(** ** DocumentStore and Session *)
(* ================================================================== *)

Section DocumentFacts.
Import Py.
Local Open Scope string_scope.
Context {E Client : Type}.
Variable MongoClient : string -> E + Client.

(** X18.  A [DocumentStore] can only be constructed for the engine
    [mongodb]: with any other value under [engine] the constructor raises
    [UnboundLocalError] for its variable [client], whatever else the
    configuration holds, and without contacting a server. *)
Theorem document_store_other_engine_is_unbound (configs : Configs) (e : cfgval) :
  Documents.engine (E := E) configs = Return e ->
  eq_str e "mongodb" = false ->
  Documents.init MongoClient configs
  = Raise (Client * cfgval) (UnboundLocalError "client").
Proof.
  intros He Hno. unfold Documents.init. rewrite He. cbn [and_then].
  rewrite Hno. reflexivity.
Qed.

(** X19.  A [DocumentStore] that has been constructed can log every
    [write]: the message names the engine [mongodb], the database the
    store was opened on and the collection, and building it raises
    nothing. *)
Theorem constructed_store_can_log
    (configs : Configs) (client : Client) (db : cfgval) (collection : string) :
  Documents.init MongoClient configs = Return (client, db) ->
  Documents.write_message (E := E) configs collection
  = Return ("Uploading to document store mongodb://" ++ fmt db ++ "/" ++ collection).
Proof.
  unfold Documents.init, Documents.write_message.
  destruct (Documents.engine (E := E) configs) as [e|err]; [|discriminate].
  cbn [and_then]. destruct (eq_str e "mongodb") eqn:He; [|discriminate].
  destruct (Documents.host (E := E) configs) as [h|err]; [|discriminate].
  destruct (Documents.port (E := E) configs) as [p|err]; [|discriminate].
  cbn [and_then].
  destruct (MongoClient ("mongodb://" ++ fmt h ++ ":" ++ fmt p)) as [err|c];
    [discriminate|].
  cbn [and_then library].
  destruct (Documents.database (E := E) configs) as [d|err]; [|discriminate].
  cbn [and_then]. intros Heq. inversion Heq; subst.
  destruct e as [|s|]; try discriminate. simpl in He.
  apply String.eqb_eq in He. now subst.
Qed.
End DocumentFacts.

Section SessionFacts.
Import Py.
Local Open Scope string_scope.
Context {E : Type}.
Variable local_load : cfgval -> result E (dict cfgval).

(** X20.  A session whose configuration has no usable [database] entry
    works on the local SQLite file: when the key is absent, or present
    with the value [None], the database handler is built without a
    configuration, no second file is loaded, and its URL is
    [sqlite:///local.db]. *)
Theorem session_without_database_is_local
    (config_path : cfgval) (c : dict cfgval) :
  is_not_None config_path = true ->
  local_load config_path = Return c ->
  getitem "database" c = None \/ getitem "database" c = Some CNone ->
  Sessions.init local_load config_path
  = Return (Sessions.mkSession (Some c) None "sqlite:///local.db").
Proof.
  intros Hpath Hload Hdb. unfold Sessions.init, Sessions.Handler_configs.
  rewrite Hpath, Hload. cbn [and_then Sessions.use_local_db].
  destruct Hdb as [Hnone | Hnull].
  - assert (Hc : contains "database" c = false).
    { apply contains_false_In. now apply getitem_None. }
    rewrite Hc. reflexivity.
  - assert (Hc : contains "database" c = true).
    { destruct (contains "database" c) eqn:Hc; [reflexivity|].
      apply contains_false_In, getitem_None in Hc. congruence. }
    rewrite Hc. cbn [negb]. unfold configs_item, item. rewrite Hnull.
    reflexivity.
Qed.
End SessionFacts.

(* ================================================================== *)
(** ** EmailHandler.send *)
(* ================================================================== *)

Section MailFacts.
Import Py Mail.
Local Open Scope string_scope.
Context {Net Server E : Type}.
Variable is_Exception : E -> bool.
Variable SMTP : string -> Z -> Net -> Net * (E + Server).
Variable starttls : Server -> Net -> Net * option E.
Variable login : Server -> string -> string -> Net -> Net * option E.
Variable sendmail : Server -> string -> string -> string -> Net -> Net * option E.
Variable quit : Server -> Net -> Net * option E.
Variable as_string : message -> string.

(** X21.  A handler made for an account without [gmail] in its name has
    no SMTP settings, and [send] on it never reaches a server: the
    [AttributeError] is logged, and the caller gets [UnboundLocalError]
    for the variable [server] from the [finally] clause. *)
Theorem send_without_gmail_account
    (account password receiver subject text : string) (n : Net) :
  has_substring "gmail" account = false ->
  send is_Exception SMTP starttls login sendmail quit as_string
       (init account password) receiver subject text (start n)
  = (Raise unit (UnboundLocalError "server"),
     mkFrame n []
       [Error "An error occurred while sending the email: "
          (AttributeError "'EmailHandler' object has no attribute 'smtp_server'")]
       None).
Proof.
  intros Hno. unfold send, init. rewrite Hno. reflexivity.
Qed.

(** X22.  When the connection cannot be opened, the caller does not get
    what [smtplib.SMTP] raised: [send] raises [UnboundLocalError] for
    [server] instead, [quit] not being called.  What was raised is logged
    when it is an [Exception], and is lost without a trace when it is
    not. *)
Theorem send_connection_error_is_replaced
    (account password receiver subject text : string) (n n' : Net) (e : E) :
  has_substring "gmail" account = true ->
  SMTP "smtp.gmail.com" 587 n = (n', inl e) ->
  send is_Exception SMTP starttls login sendmail quit as_string
       (init account password) receiver subject text (start n)
  = (Raise unit (UnboundLocalError "server"),
     mkFrame n' [Connect "smtp.gmail.com" 587]
       (if is_Exception e
        then [Error "An error occurred while sending the email: " (LibraryError e)]
        else [])
       None).
Proof.
  intros Hg Hc. unfold send, init. rewrite Hg.
  unfold try_except_finally, finally_reraise, send_body, bind, attribute, ret,
    connect, start.
  simpl. rewrite Hc. cbn [is_exception]. destruct (is_Exception e); reflexivity.
Qed.

(** Unfold a call of [send] down to the calls of the library. *)
Ltac run_send :=
  unfold send, try_except_finally, finally_reraise, send_body, bind, attribute,
    ret, raise, connect, the_server, library_call, logger, modify, start;
  cbn [option_map fst snd smtp sender net calls log server is_exception].

Ltac mail_step :=
  cbn [app option_map fst snd smtp sender net calls log server is_exception].


(** X24.  [send] hands a message to the server only on a connection that
    is encrypted and logged in: if [sendmail] was called at all, then the
    account is a [gmail] one, the connection was opened, and [starttls]
    and [login], with the password of the handler, both returned. *)
Theorem sendmail_only_after_starttls_and_login
    (account password receiver subject text : string) (n : Net)
    (from_addr to_addr msg : string) :
  In (SendMail from_addr to_addr msg)
     (calls (snd (send is_Exception SMTP starttls login sendmail quit as_string
                       (init account password) receiver subject text (start n)))) ->
  has_substring "gmail" account = true
  /\ exists (n1 n2 n3 : Net) (s : Server),
       SMTP "smtp.gmail.com" 587 n = (n1, inr s)
       /\ starttls s n1 = (n2, None)
       /\ login s account password n2 = (n3, None).
Proof.
  unfold init. destruct (has_substring "gmail" account) eqn:Hg.
  2:{ intros []. }
  run_send.
  destruct (SMTP "smtp.gmail.com" 587 n) as [n1 [e|s]] eqn:Hc; mail_step.
  { destruct (is_Exception e); mail_step; intros [H|[]]; discriminate. }
  destruct (starttls s n1) as [n2 [e|]] eqn:Ht; mail_step.
  { destruct (is_Exception e); mail_step;
      destruct (quit s n2) as [n3 [e'|]]; cbn [app calls snd];
      intros [H|[H|[H|[]]]]; discriminate. }
  destruct (login s account password n2) as [n3 [e|]] eqn:Hl; mail_step.
  { destruct (is_Exception e); mail_step;
      destruct (quit s n3) as [n4 [e'|]]; cbn [app calls snd];
      intros [H|[H|[H|[H|[]]]]]; discriminate. }
  intros _. split; [reflexivity|]. now exists n1, n2, n3, s.
Qed.
End MailFacts.

(* ================================================================== *)
(** ** The further theorems at work on the fixture and the samples *)
(* ================================================================== *)

Section WriterMoreRuns.
Import Fixture.
Local Open Scope string_scope.

Ltac each_record_wf :=
  repeat (apply Forall_cons; [apply wfb_wf; reflexivity|]); apply Forall_nil.

Lemma flush_after_flush_is_noop_witness :
  flush (cls := Columns t_v) (snd (flush (cls := Columns t_v) (loaded 3 5)))
  = (Return tt, set_buffer (empty_columns t_v) (sent (2%nat : Handler) (loaded 3 5))).
Proof.
  refine (flush_after_flush_is_noop t_v (loaded 3 5) _). reflexivity.
Defined.

Lemma write_returns_below_capacity_witness :
  exists n,
    _buf_size (snd (write (cls := Columns t_v) (rec 2 20) (loaded 3 2)))
    = (Return n, snd (write (cls := Columns t_v) (rec 2 20) (loaded 3 2)))
    /\ Z.of_nat n
       < _buf_capacity (self (snd (write (cls := Columns t_v) (rec 2 20) (loaded 3 2)))).
Proof.
  refine (write_returns_below_capacity t_v (rec 2 20) (loaded 3 2) _ _).
  - simpl. lia.
  - reflexivity.
Defined.

Lemma partial_record_desynchronizes_witness :
  fst (_append_buffer (rec_v 20) (loaded 3 5)) = Return tt
  /\ uniform (_buffer (self (snd (_append_buffer (rec_v 20) (loaded 3 5))))) = false.
Proof.
  refine (partial_record_desynchronizes (rec_v 20) (loaded 3 5) "v" "t" _ _ _ _ _ _ _).
  - apply wfb_wf; reflexivity.
  - apply wfb_wf; reflexivity.
  - reflexivity.
  - reflexivity.
  - reflexivity.
  - reflexivity.
  - reflexivity.
Defined.

Lemma records_without_first_key_pile_up_witness :
  write_seq (cls := Columns t_v) [rec_v 10; rec_v 20; rec_v 30] (writer t_v 3 2)
  = (Return tt,
     set_buffer [("t", []); ("v", [10; 20; 30])] (writer t_v 3 2))
  /\ sink_calls (snd (write_seq (cls := Columns t_v) [rec_v 10; rec_v 20; rec_v 30]
                                (writer t_v 3 2))) = []
  /\ _buf_size (snd (write_seq (cls := Columns t_v) [rec_v 10; rec_v 20; rec_v 30]
                               (writer t_v 3 2)))
     = (Return 0%nat,
        snd (write_seq (cls := Columns t_v) [rec_v 10; rec_v 20; rec_v 30]
                       (writer t_v 3 2))).
Proof.
  refine (records_without_first_key_pile_up (cls := Columns t_v)
            [rec_v 10; rec_v 20; rec_v 30] (writer t_v 3 2) "t" ["v"]
            _ _ _ _ _ _).
  - simpl. lia.
  - apply wfb_wf; reflexivity.
  - reflexivity.
  - reflexivity.
  - each_record_wf.
  - repeat constructor.
Defined.

Lemma written_records_are_conserved_witness :
  (delivered "v" (sink_calls (snd (write_seq (cls := Columns t_v)
       [rec 1 10; rec 2 20; rec 3 30; rec 4 40; rec 5 50] (writer t_v 3 2))))
   ++ stored "v" (_buffer (self (snd (write_seq (cls := Columns t_v)
       [rec 1 10; rec 2 20; rec 3 30; rec 4 40; rec 5 50] (writer t_v 3 2))))))%list
  = [10; 20; 30; 40; 50].
Proof.
  refine (written_records_are_conserved t_v
            [rec 1 10; rec 2 20; rec 3 30; rec 4 40; rec 5 50]
            (writer t_v 3 2) "v" _ _ _ _).
  - reflexivity.
  - simpl. auto.
  - each_record_wf.
  - reflexivity.
Defined.

Lemma writes_flush_every_capacity_witness :
  exists calls,
    sink_calls (snd (write_seq (cls := Columns t_v)
       [rec 1 10; rec 2 20; rec 3 30; rec 4 40; rec 5 50] (writer t_v 3 2)))
    = ([] ++ calls)%list
    /\ length calls = 2%nat
    /\ Forall (fun call => buf_len (fst call) = 2%nat) calls
    /\ fst (_buf_size (snd (write_seq (cls := Columns t_v)
         [rec 1 10; rec 2 20; rec 3 30; rec 4 40; rec 5 50] (writer t_v 3 2))))
       = Return 1%nat.
Proof.
  refine (writes_flush_every_capacity t_v
            [rec 1 10; rec 2 20; rec 3 30; rec 4 40; rec 5 50]
            (writer t_v 3 2) _ _ _ _ _ _).
  - discriminate.
  - reflexivity.
  - simpl. lia.
  - each_record_wf.
  - repeat constructor.
  - reflexivity.
Defined.
End WriterMoreRuns.

Section SampleRuns.
Import Py Samples.
Local Open Scope string_scope.

Lemma hdf5_every_dataset_has_its_key_witness :
  contains "/run/v"
    [("attrs", Files.Attrs [("version", 3)]);
     ("/run/t", Files.Content 1); ("/run/v", Files.Content 2)] = true.
Proof.
  refine (hdf5_every_dataset_has_its_key (E := string) sample_attrs sample_file
            [("attrs", Files.Attrs [("version", 3)]);
             ("/run/t", Files.Content 1); ("/run/v", Files.Content 2)]
            ["run"; "v"] 2 _ _).
  - reflexivity.
  - eapply Files.at_member; [left; reflexivity|].
    eapply Files.at_member; [right; left; reflexivity|].
    apply Files.at_dataset.
Defined.

Lemma dump_formats_are_load_formats_witness :
  Files.local_load splitext json_load yaml_safe_load h5py_File "conf.json"
  <> Raise Files.loaded (Files.unsupported "conf.json").
Proof.
  refine (dump_formats_are_load_formats splitext json_load yaml_safe_load
            h5py_File json_dump yaml_dump 7 "conf.json" _).
  discriminate.
Defined.

Lemma hdf5_is_loaded_but_not_dumped_witness :
  Files.local_load splitext json_load yaml_safe_load h5py_File "data.h5"
  = Return (Files.FromHdf5
              [("attrs", Files.Attrs [("version", 3)]);
               ("/run/t", Files.Content 1); ("/run/v", Files.Content 2)])
  /\ Files.local_load splitext json_load yaml_safe_load h5py_File "data.h5"
     <> Raise Files.loaded (Files.unsupported "data.h5")
  /\ Files.local_dump splitext json_dump yaml_dump 7 "data.h5"
     = Raise unit (ValueError "Unsupported file format: data.h5").
Proof.
  refine (hdf5_is_loaded_but_not_dumped splitext json_load yaml_safe_load
            h5py_File json_dump yaml_dump 7 "data.h5" _).
  simpl. auto.
Defined.

Lemma unsupported_engine_raises_ValueError_witness :
  Database.engine_url (E := string) (Some redis_config)
  = Raise string (ValueError "Unsupported database engine: redis").
Proof.
  refine (unsupported_engine_raises_ValueError redis_config (CStr "redis") _ _);
    reflexivity.
Defined.

Lemma unspecified_engine_constructs_then_fails_witness :
  Database.engine_url (E := string) (Some unspecified_config)
  = Return "sqlite:///local.db"
  /\ Database.write_message (E := string) (Some unspecified_config)
     = Raise string (KeyError "database")
  /\ Database.exec_sql_message (E := string) (Some unspecified_config)
     = Raise string (KeyError "database")
  /\ forall path table,
       Database.read_csv_message (E := string) (Some unspecified_config) path table
       = Raise string (KeyError "database").
Proof.
  refine (unspecified_engine_constructs_then_fails unspecified_config _ _);
    reflexivity.
Defined.

Lemma constructed_handler_can_log_witness :
  (exists msg, Database.write_message (E := string) (Some mysql_config) = Return msg)
  /\ (exists msg, Database.exec_sql_message (E := string) (Some mysql_config)
                  = Return msg)
  /\ forall path table,
       exists msg,
         Database.read_csv_message (E := string) (Some mysql_config) path table
         = Return msg.
Proof.
  refine (constructed_handler_can_log (Some mysql_config)
            "mysql+pymysql://ann:pw@db.lab:3306/lab" _ _).
  - reflexivity.
  - intros c Hc. inversion Hc; subst. discriminate.
Defined.


Lemma populated_writes_never_IndexError_witness :
  fst (flush (sink := reading_sink) (cls := Columns ["t"; "v"]) reading_writer)
    <> Raise unit (SinkError (sink := reading_sink) IndexError)
  /\ fst (write (sink := reading_sink) (cls := Columns ["t"; "v"])
            (stamped 2 20) reading_writer)
     <> Raise unit (SinkError (sink := reading_sink) IndexError).
Proof.
  refine (populated_writes_never_IndexError is_stamp DataFrame to_sql
            ["t"; "v"] (stamped 2 20) reading_writer _ _ _).
  - split; reflexivity.
  - apply wfb_wf; reflexivity.
  - reflexivity.
Defined.

Lemma document_store_other_engine_is_unbound_witness :
  Documents.init MongoClient (Some mysql_config)
  = Raise (string * cfgval) (UnboundLocalError "client").
Proof.
  refine (document_store_other_engine_is_unbound MongoClient (Some mysql_config)
            (CStr "mysql") _ _); reflexivity.
Defined.

Lemma constructed_store_can_log_witness :
  Documents.write_message (E := string) (Some mongo_config) "runs"
  = Return "Uploading to document store mongodb://lab/runs".
Proof.
  refine (constructed_store_can_log MongoClient (Some mongo_config)
            "mongodb://db.lab:27017" (CStr "lab") "runs" _).
  reflexivity.
Defined.

Lemma session_without_database_is_local_witness :
  Sessions.init session_load (CStr "session.json")
  = Return (Sessions.mkSession (Some [("name", CStr "demo")]) None
                               "sqlite:///local.db").
Proof.
  refine (session_without_database_is_local session_load (CStr "session.json")
            [("name", CStr "demo")] _ _ _).
  - reflexivity.
  - reflexivity.
  - left. reflexivity.
Defined.

Lemma send_without_gmail_account_witness :
  Mail.send is_Exception SMTP starttls login sendmail quit as_string
    (Mail.init "ann@lab.org" "secret") "bob@lab.org" "hello" "text"
    (Mail.start 0%nat)
  = (Raise unit (UnboundLocalError "server"),
     Mail.mkFrame 0%nat []
       [Mail.Error "An error occurred while sending the email: "
          (AttributeError "'EmailHandler' object has no attribute 'smtp_server'")]
       None).
Proof.
  refine (send_without_gmail_account is_Exception SMTP starttls login sendmail
            quit as_string
            "ann@lab.org" "secret" "bob@lab.org" "hello" "text" 0%nat _).
  reflexivity.
Defined.

Lemma send_connection_error_is_replaced_witness :
  Mail.send is_Exception refused_SMTP starttls login sendmail quit as_string
    (Mail.init "ann@gmail.com" "secret") "bob@lab.org" "hello" "text"
    (Mail.start 0%nat)
  = (Raise unit (UnboundLocalError "server"),
     Mail.mkFrame 1%nat [Mail.Connect "smtp.gmail.com" 587]
       [Mail.Error "An error occurred while sending the email: "
          (LibraryError "connection refused")]
       None).
Proof.
  refine (send_connection_error_is_replaced is_Exception refused_SMTP starttls
            login sendmail quit as_string
            "ann@gmail.com" "secret" "bob@lab.org" "hello" "text"
            0%nat 1%nat "connection refused" _ _); reflexivity.
Defined.


Lemma sendmail_only_after_starttls_and_login_witness :
  Mail.has_substring "gmail" "ann@gmail.com" = true
  /\ exists (n1 n2 n3 : nat) (s : unit),
       SMTP "smtp.gmail.com" 587 0%nat = (n1, inr s)
       /\ starttls s n1 = (n2, None)
       /\ login s "ann@gmail.com" "secret" n2 = (n3, None).
Proof.
  refine (sendmail_only_after_starttls_and_login is_Exception SMTP starttls login
            sendmail quit as_string
            "ann@gmail.com" "secret" "bob@lab.org" "hello" "text"
            0%nat "ann@gmail.com" "bob@lab.org"
            (as_string (Mail.mkMessage "ann@gmail.com" "bob@lab.org" "hello" "text"))
            _).
  vm_compute. auto.
Defined.

(** A login interrupted from the keyboard: nothing is logged, the
    connection is closed, and the interrupt reaches the caller. *)
Example send_interrupted_at_login :
  Mail.send is_Exception SMTP starttls login sendmail quit as_string
    (Mail.init "ann@gmail.com" "slow") "bob@lab.org" "hello" "text"
    (Mail.start 0%nat)
  = (Raise unit (LibraryError "KeyboardInterrupt"),
     Mail.mkFrame 4%nat
       [Mail.Connect "smtp.gmail.com" 587; Mail.StartTls;
        Mail.Login "ann@gmail.com" "slow"; Mail.Quit]
       [] (Some tt)).
Proof. reflexivity. Qed.

(** A login refused by the server: the error is logged, the connection
    is closed, and [send] returns. *)
Example send_refused_at_login :
  Mail.send is_Exception SMTP starttls login sendmail quit as_string
    (Mail.init "ann@gmail.com" "wrong") "bob@lab.org" "hello" "text"
    (Mail.start 0%nat)
  = (Return tt,
     Mail.mkFrame 4%nat
       [Mail.Connect "smtp.gmail.com" 587; Mail.StartTls;
        Mail.Login "ann@gmail.com" "wrong"; Mail.Quit]
       [Mail.Error "An error occurred while sending the email: "
          (LibraryError "authentication failed")]
       (Some tt)).
Proof. reflexivity. Qed.

(** A file with a link that cannot be resolved: [hdf5_to_dict] raises
    what [h5py] raised for the link. *)
Example hdf5_broken_link_raises :
  Files.hdf5_to_dict (A := Z) sample_attrs broken_file
  = Raise _ (LibraryError "Unable to open object").
Proof. reflexivity. Qed.

Lemma csv_constructor_ignores_engine_witness :
  exists msg,
    Database.init (E := string) splitext (Some redis_config)
      (Some "runs.csv") None
    = Return ("sqlite:///local.db", Some msg).
Proof.
  refine (proj1 (csv_constructor_ignores_engine splitext redis_config
                   "runs.csv" None) _).
  reflexivity.
Defined.
End SampleRuns.
